(** * Heading Analyzer (stra2.py): extractor, tree renderer and URL driver

    A shallow embedding of [src/stra2.py].  A Python [str] is modelled as the
    list of its Unicode code points, Python [int] as [Z] (levels, status
    codes) or [nat] (counters that only grow from 0), Python [dict] as
    stdpp's [gmap], and exceptions as an explicit result type.

    What the script takes from outside the repository is a parameter of the
    development: the character tables of Python ([str.isspace], [\w] of [re],
    the digits [int] accepts, [str.lower], [str.upper]) and the texts of
    library exceptions form a record [Tables]; the network and the HTML
    parser form a record [Web]; the spreadsheet is part of the form inputs.
    Theorems hold for every such table; where a theorem evaluates the code on
    ASCII text it assumes that the tables agree with Python's on ASCII. *)

From Stdlib Require Import ZArith NArith List Ascii String Lia Bool.
From stdpp Require Import base gmap strings list fin_maps.
Import ListNotations.

(** ** Strings *)

(** A Python string: its code points. *)
Definition str : Type := list N.

(** A string literal of the source. *)
Definition u (s : string) : str := List.map N_of_ascii (list_ascii_of_string s).

(** ** Exceptions and results *)

(** [requests.Response], as far as the script and the message of
    [raise_for_status] read it: the status code, the reason phrase, the URL
    of the response and the body. *)
Record Response := {
  status_code : Z;
  reason : str;
  response_url : str;
  text : str
}.

(** The exceptions that occur, each with the text [str(e)] gives. *)
Inductive exn :=
| IndexError (msg : str)
| ValueError (msg : str)
| RequestException (msg : str) (response : option Response)
| OtherException (msg : str).

(** [str(e)] *)
Definition str_exn (e : exn) : str :=
  match e with
  | IndexError msg => msg
  | ValueError msg => msg
  | RequestException msg _ => msg
  | OtherException msg => msg
  end.

Inductive result (A : Type) :=
| Ok (a : A)
| Raise (e : exn).
Arguments Ok {A} a.
Arguments Raise {A} e.

#[global] Instance result_ret : MRet result := fun _ a => Ok a.
#[global] Instance result_bind : MBind result := fun _ _ f m =>
  match m with Ok a => f a | Raise e => Raise e end.
#[global] Instance result_fmap : FMap result := fun _ _ f m =>
  match m with Ok a => Ok (f a) | Raise e => Raise e end.

(** Evaluate [f] on each element in order; the first exception wins. *)
Fixpoint map_result {A B} (f : A -> result B) (l : list A) : result (list B) :=
  match l with
  | [] => Ok []
  | a :: r => b ← f a; bs ← map_result f r; Ok (b :: bs)
  end.

(** ** What Python and its libraries supply *)

(** The character tables of the interpreter and the texts of library
    exceptions.  [is_space] is [str.isspace] on one character, [is_word] the
    class [\w] of [re] on [str] patterns, [decimal] the value of a character
    that [int] accepts as a one-digit number, [lower] and [upper] the string
    methods (which may change the length of a string). *)
Record Tables := {
  is_space : N -> bool;
  is_word : N -> bool;
  decimal : N -> option Z;
  lower : str -> str;
  upper : str -> str;
  http_error_text : Response -> str;   (* str(e) of raise_for_status's HTTPError *)
  int_error_text : N -> str;           (* str(e) of int(c)'s ValueError *)
  min_error_text : str;                (* str(e) of min() of nothing *)
  iloc_error_text : str                (* str(e) of df.iloc[:, 0] without columns *)
}.

(** *** Python's tables on ASCII *)

Module Ascii7.

Definition between (a b c : N) : bool := ((a <=? c) && (c <=? b))%N.

(** TAB..CR, FS..US, SPACE. *)
Definition space (c : N) : bool := between 9 13 c || between 28 32 c.

Definition upper_letter (c : N) : bool := between 65 90 c.
Definition lower_letter (c : N) : bool := between 97 122 c.
Definition digit (c : N) : bool := between 48 57 c.

(** Letters, digits, underscore. *)
Definition word (c : N) : bool :=
  upper_letter c || lower_letter c || digit c || (c =? 95)%N.

Definition lower_char (c : N) : N := if upper_letter c then (c + 32)%N else c.
Definition upper_char (c : N) : N := if lower_letter c then (c - 32)%N else c.

Definition digit_value (c : N) : option Z :=
  if digit c then Some (Z.of_N c - 48)%Z else None.

End Ascii7.

(** A string of ASCII characters. *)
Definition ascii_str (s : str) : Prop := Forall (fun c => (c < 128)%N) s.

(** The tables agree with Python's on ASCII characters and strings. *)
Definition python_on_ascii (U : Tables) : Prop :=
  (forall c, (c < 128)%N -> is_space U c = Ascii7.space c)
  /\ (forall c, (c < 128)%N -> is_word U c = Ascii7.word c)
  /\ (forall c, (c < 128)%N -> decimal U c = Ascii7.digit_value c)
  /\ (forall s, ascii_str s -> lower U s = List.map Ascii7.lower_char s)
  /\ (forall s, ascii_str s -> upper U s = List.map Ascii7.upper_char s).

(** The value of a digit is between 0 and 9. *)
Definition decimal_range (U : Tables) : Prop :=
  forall c d, decimal U c = Some d -> (0 <= d <= 9)%Z.

(** ** Python string primitives *)

Module PyStr.

(** The newline character, written ["\n"] in the source. *)
Definition nl_char : N := 10%N.
Definition nl : str := [nl_char].

(** [s.lstrip()], [s.rstrip()], [s.strip()]. *)
Fixpoint lstrip (U : Tables) (s : str) : str :=
  match s with
  | [] => []
  | c :: r => if is_space U c then lstrip U r else s
  end.

Fixpoint rstrip (U : Tables) (s : str) : str :=
  match s with
  | [] => []
  | c :: r =>
      match rstrip U r with
      | [] => if is_space U c then [] else [c]
      | r' => c :: r'
      end
  end.

Definition strip (U : Tables) (s : str) : str := rstrip U (lstrip U s).

(** [''.join(l)] *)
Definition join (l : list str) : str := List.concat l.

(** Truth value of a string: [if s:]. *)
Definition truthy (s : str) : bool :=
  match s with [] => false | _ => true end.

(** [s * n] for an integer [n]; a count below 1 gives the empty string. *)
Definition mul (s : str) (n : Z) : str :=
  Nat.iter (Z.to_nat n) (fun acc => s ++ acc) [].

(** [s.split(sep)] for a single separator character: the fields between
    separators, an empty input giving one empty field. *)
Fixpoint split_on (sep : N) (s : str) : list str :=
  match s with
  | [] => [[]]
  | c :: r =>
      if (c =? sep)%N then [] :: split_on sep r
      else match split_on sep r with
           | [] => [[c]]
           | f :: fs => (c :: f) :: fs
           end
  end.

(** [s.split("\n")]. *)
Definition split_lines (s : str) : list str := split_on nl_char s.

(** Number of occurrences of a character, [s.count(c)]. *)
Fixpoint count_char (c : N) (s : str) : nat :=
  match s with
  | [] => 0
  | d :: r => (if (d =? c)%N then 1 else 0) + count_char c r
  end.

(** [s.endswith(c)] for one character. *)
Fixpoint ends_with_char (c : N) (s : str) : bool :=
  match s with
  | [] => false
  | [d] => (d =? c)%N
  | _ :: r => ends_with_char c r
  end.

(** The number of newline-terminated lines of a text: [s.count("\n")]. *)
Definition line_count (s : str) : nat := count_char nl_char s.

End PyStr.

(** ** Tree renderer: [build_tree] *)

Module Tree.
Import PyStr.

(** A heading node as the script holds it: a [(tag, text)] tuple. *)
Definition node : Type := str * str.

(** [tag[1]] *)
Definition second_char (tag : str) : result N :=
  match nth_error tag 1 with
  | Some c => Ok c
  | None => Raise (IndexError (u "string index out of range"))
  end.

(** [int(c)] for a one-character string. *)
Definition int_of_char (U : Tables) (c : N) : result Z :=
  match decimal U c with
  | Some d => Ok d
  | None => Raise (ValueError (int_error_text U c))
  end.

(** [int(tag[1])] *)
Definition tag_level (U : Tables) (tag : str) : result Z :=
  c ← second_char tag; int_of_char U c.

(** [min(...)] over the values a generator yields. *)
Definition py_min (U : Tables) (l : list Z) : result Z :=
  match l with
  | [] => Raise (ValueError (min_error_text U))
  | x :: r => Ok (fold_left Z.min r x)
  end.

(** [f"{indent}- {tag}: {text}\n"] *)
Definition fmt_line (indent tag text : str) : str :=
  indent ++ u "- " ++ tag ++ u ": " ++ text ++ nl.

(** The body of [for tag, text in structure:], threading [tree]. *)
Fixpoint build_tree_loop (U : Tables) (min_level : Z) (structure : list node)
    (tree : str) : result str :=
  match structure with
  | [] => Ok tree
  | (tag, text) :: rest =>
      n ← tag_level U tag;
      let level := (n - min_level)%Z in
      let indent := mul (u "  ") level in
      build_tree_loop U min_level rest (tree ++ fmt_line indent tag text)
  end.

Definition no_headings : str := u "No headings found.".

Definition build_tree (U : Tables) (structure : list node) : result str :=
  match structure with
  | [] => Ok no_headings
  | _ :: _ =>
      let tree := [] in
      min_level ← (match structure with
                   | _ :: _ =>
                       levels ← map_result (fun p : node => tag_level U (fst p)) structure;
                       py_min U levels
                   | [] => Ok 1%Z
                   end);
      build_tree_loop U min_level structure tree
  end.

(** *** The same function as a transition system

    The control points of [build_tree]: function entry, the head of the
    [for] loop (with the local variables [min_level], the not yet visited
    part of [structure], and [tree]), and the exit with a returned value or
    a raised exception. *)
Inductive config :=
| Entry (structure : list node)
| Loop (min_level : Z) (pending : list node) (tree : str)
| Exit (r : result str).

Inductive step (U : Tables) : config -> config -> Prop :=
| step_empty :
    step U (Entry []) (Exit (Ok no_headings))
| step_min x l levels m :
    map_result (fun p : node => tag_level U (fst p)) (x :: l) = Ok levels ->
    py_min U levels = Ok m ->
    step U (Entry (x :: l)) (Loop m (x :: l) [])
| step_min_raise_level x l e :
    map_result (fun p : node => tag_level U (fst p)) (x :: l) = Raise e ->
    step U (Entry (x :: l)) (Exit (Raise e))
| step_min_raise_empty x l levels e :
    map_result (fun p : node => tag_level U (fst p)) (x :: l) = Ok levels ->
    py_min U levels = Raise e ->
    step U (Entry (x :: l)) (Exit (Raise e))
| step_iter m tag text rest tree n :
    tag_level U tag = Ok n ->
    step U (Loop m ((tag, text) :: rest) tree)
           (Loop m rest (tree ++ fmt_line (mul (u "  ") (n - m)%Z) tag text))
| step_iter_raise m tag text rest tree e :
    tag_level U tag = Raise e ->
    step U (Loop m ((tag, text) :: rest) tree) (Exit (Raise e))
| step_return m tree :
    step U (Loop m [] tree) (Exit (Ok tree)).

(** A complete call of [build_tree] on [structure] with outcome [r]. *)
Definition runs (U : Tables) (structure : list node) (r : result str) : Prop :=
  rtc (step U) (Entry structure) (Exit r).

(** The level-tags of the data model. *)
Definition level_tags : list str :=
  [u "H1"; u "H2"; u "H3"; u "H4"; u "H5"; u "H6"].

Definition is_level_tag (tag : str) : Prop := In tag level_tags.

(** The rendering the specification describes, written independently of
    the loop: the numeric level of a tag (the value of its second character),
    the minimum over a sequence, and one line per node. *)
Definition numeric_level (U : Tables) (tag : str) : Z :=
  match nth_error tag 1 with
  | Some c => match decimal U c with Some d => d | None => 0%Z end
  | None => 0%Z
  end.

Definition min_level_of (U : Tables) (structure : list node) : Z :=
  match structure with
  | [] => 1%Z
  | (tag, _) :: rest =>
      fold_right (fun p acc => Z.min (numeric_level U (fst p)) acc)
                 (numeric_level U tag) rest
  end.

(** [k] two-space units, a dash, the tag, a colon, the text, a newline. *)
Definition rendered_line (k : nat) (tag text : str) : str :=
  join (repeat (u "  ") k) ++ u "- " ++ tag ++ u ": " ++ text ++ nl.

(** The same line without its closing newline. *)
Definition line_body (k : nat) (tag text : str) : str :=
  join (repeat (u "  ") k) ++ u "- " ++ tag ++ u ": " ++ text.

Definition indent_units (U : Tables) (structure : list node) (tag : str) : Z :=
  (numeric_level U tag - min_level_of U structure)%Z.

End Tree.

(** ** Keyword patterns: the fragment of [re] the extractor uses *)

Module Re.
Import PyStr.

(** [re.escape]: a backslash before each of the characters
    [()[]{}?*+-|^$\.&~#] and space, TAB, LF, CR, VT, FF. *)
Definition is_special (c : N) : bool :=
  existsb (N.eqb c)
    [40; 41; 91; 93; 123; 125; 63; 42; 43; 45; 124; 94; 36; 92; 46; 38; 126;
     35; 32; 9; 10; 13; 11; 12]%N.

Definition backslash : N := 92%N.

Fixpoint escape (s : str) : str :=
  match s with
  | [] => []
  | c :: r =>
      if is_special c then backslash :: c :: escape r
      else c :: escape r
  end.

(** Patterns built by the extractor only contain word-boundary assertions
    and literal characters. *)
Inductive atom :=
| WordBoundary
| Lit (c : N).

(** Characters with a meaning of their own in a pattern. *)
Definition is_meta (c : N) : bool :=
  existsb (N.eqb c) [46; 94; 36; 42; 43; 63; 123; 125; 91; 93; 92; 124; 40; 41]%N.

(** The ASCII letters and digits, which after a backslash form the escapes
    of the pattern syntax. *)
Definition is_alnum (c : N) : bool :=
  Ascii7.upper_letter c || Ascii7.lower_letter c || Ascii7.digit c.

(** [re.compile] on that fragment; [esc] tells that the previous character
    was an unconsumed backslash.  [None] stands for a pattern outside the
    fragment (or one [re] rejects). *)
Fixpoint compile_from (esc : bool) (s : str) : option (list atom) :=
  match s with
  | [] => if esc then None else Some []
  | c :: r =>
      if esc then
        if (c =? 98)%N then cons WordBoundary <$> compile_from false r
        else if is_alnum c then None
        else cons (Lit c) <$> compile_from false r
      else if (c =? backslash)%N then compile_from true r
      else if is_meta c then None
      else cons (Lit c) <$> compile_from false r
  end.

Definition compile (pattern : str) : option (list atom) :=
  compile_from false pattern.

Definition word_at (U : Tables) (c : option N) : bool :=
  match c with Some c => is_word U c | None => false end.

(** [\b]: exactly one of the two neighbours is a word character. *)
Definition at_boundary (U : Tables) (prev : option N) (s : str) : bool :=
  xorb (word_at U prev) (word_at U (head s)).

(** Match the atoms at the current position ([prev] is the character
    before it); the number of characters consumed. *)
Fixpoint match_here (U : Tables) (atoms : list atom) (prev : option N) (s : str)
  : option nat :=
  match atoms with
  | [] => Some 0
  | WordBoundary :: r => if at_boundary U prev s then match_here U r prev s else None
  | Lit c :: r =>
      match s with
      | d :: t => if (d =? c)%N then S <$> match_here U r (Some d) t else None
      | [] => None
      end
  end.

(** [len(re.findall(...))]: scan from the left; after a match the search
    resumes at its end ([skip] counts the characters still covered by the
    last match), otherwise one character further. *)
Fixpoint scan (U : Tables) (atoms : list atom) (prev : option N) (s : str) (skip : nat)
  {struct s} : nat :=
  match skip with
  | S k =>
      match s with
      | [] => 0
      | c :: r => scan U atoms (Some c) r k
      end
  | O =>
      match match_here U atoms prev s with
      | Some n =>
          S (match s with
             | [] => 0
             | c :: r => scan U atoms (Some c) r (Nat.pred n)
             end)
      | None =>
          match s with
          | [] => 0
          | c :: r => scan U atoms (Some c) r 0
          end
      end
  end.

(** [len(re.findall(pattern, text))] *)
Definition findall_count (U : Tables) (pattern text : str) : result nat :=
  match compile pattern with
  | Some atoms => Ok (scan U atoms None text 0)
  | None => Raise (OtherException (u "re.error"))
  end.

End Re.

(** ** The user-facing layer and the network, as state *)

(** Messages the script shows through streamlit. *)
Inductive ui_msg :=
| st_error (msg : str)
| st_warning (msg : str)
| st_info (msg : str).

(** What a run has done so far: the URLs passed to [requests.get], oldest
    first, and the messages shown. *)
Record World := { fetched : list str; shown : list ui_msg }.

Definition record_fetch (url : str) (w : World) : World :=
  {| fetched := fetched w ++ [url]; shown := shown w |}.

Definition show (m : ui_msg) (w : World) : World :=
  {| fetched := fetched w; shown := shown w ++ [m] |}.

Definition empty_world : World := {| fetched := []; shown := [] |}.

(** ** Extractor: [get_headings] *)

Module Extractor.
Import PyStr.

(** An element of the parsed document: its tag name, its [.text] and its
    attributes. *)
Record Element := {
  name : str;
  elem_text : str;
  attrs : gmap str str
}.

(** The parsed document: its elements in document order and the result
    of [get_text()]. *)
Record Soup := { descendants : list Element; get_text : str }.

(** What [BeautifulSoup(html, 'html.parser')] does: it gives the parsed
    document, or raises an exception of the parser (never one of [requests])
    on markup it rejects. *)
Inductive parsed :=
| Parsed (soup : Soup)
| Rejected (msg : str).

(** The world outside: [requests.get(url, timeout=10)], whose answer may
    depend on what was fetched before (the list of earlier URLs stands for
    the moment of the call), and the parser. *)
Record Web := {
  requests_get : list str -> str -> result Response;
  BeautifulSoup : str -> parsed
}.

(** The parser call inside the [try]. *)
Definition parse (W : Web) (html : str) : result Soup :=
  match BeautifulSoup W html with
  | Parsed soup => Ok soup
  | Rejected msg => Raise (OtherException msg)
  end.

(** [soup.find(tag)], [soup.find(tag, attrs={k: v})], [soup.find_all(tags)] *)
Definition find (tag : str) (soup : Soup) : option Element :=
  List.find (fun e => bool_decide (name e = tag)) (descendants soup).

Definition find_attr (tag k v : str) (soup : Soup) : option Element :=
  List.find (fun e => bool_decide (name e = tag) &&
                      bool_decide (attrs e !! k = Some v)) (descendants soup).

Definition find_all (tags : list str) (soup : Soup) : list Element :=
  List.filter (fun e => existsb (fun t => bool_decide (name e = t)) tags)
              (descendants soup).

(** The names asked of [find_all]. *)
Definition heading_names : list str :=
  [u "h1"; u "h2"; u "h3"; u "h4"; u "h5"; u "h6"].

(** [response.raise_for_status()]: an [HTTPError], which is a
    [RequestException] carrying the response, for a 4xx or 5xx status. *)
Definition raise_for_status (U : Tables) (response : Response) : result unit :=
  if ((400 <=? status_code response) && (status_code response <? 600))%Z
  then Raise (RequestException (http_error_text U response) (Some response))
  else Ok tt.

(** The tuple [get_headings] returns, by the names of its [return]. *)
Record Headings := {
  total : nat;
  counts : gmap str nat;
  structure : list (str * str);
  page_title : str;
  http_status : Z;
  meta_desc : str;
  keyword_counts : gmap str nat
}.

Definition initial_counts : gmap str nat :=
  <[u "H1" := 0]> (<[u "H2" := 0]> (<[u "H3" := 0]> (<[u "H4" := 0]>
    (<[u "H5" := 0]> (<[u "H6" := 0]> ∅))))).

(** [for h in headings:] with the three variables it updates. *)
Fixpoint count_headings (U : Tables) (headings : list Element)
    (counts : gmap str nat) (total : nat) (structure : list (str * str))
  : gmap str nat * nat * list (str * str) :=
  match headings with
  | [] => (counts, total, structure)
  | h :: rest =>
      let tag := upper U (name h) in
      match counts !! tag with
      | Some v =>
          count_headings U rest (<[tag := v + 1]> counts) (total + 1)
                         (structure ++ [(tag, strip U (elem_text h))])
      | None => count_headings U rest counts total structure
      end
  end.

(** [r'\b' + re.escape(keyword.lower()) + r'\b'] *)
Definition pattern_of (U : Tables) (keyword : str) : str :=
  u "\b" ++ Re.escape (lower U keyword) ++ u "\b".

(** [len(re.findall(pattern, text_content))] for one keyword. *)
Definition count_keyword (U : Tables) (text_content keyword : str) : result nat :=
  Re.findall_count U (pattern_of U keyword) text_content.

(** [for keyword in keywords:] *)
Fixpoint count_keywords (U : Tables) (text_content : str) (keywords : list str)
    (keyword_counts : gmap str nat) : result (gmap str nat) :=
  match keywords with
  | [] => Ok keyword_counts
  | keyword :: rest =>
      if truthy (strip U keyword) then
        count ← count_keyword U text_content keyword;
        count_keywords U text_content rest (<[keyword := count]> keyword_counts)
      else count_keywords U text_content rest keyword_counts
  end.

(** Truth value of the optional keyword list: [if keywords:]. *)
Definition keywords_given (keywords : option (list str)) : list str :=
  match keywords with
  | Some l => l
  | None => []
  end.

(** [getattr(e.response, 'status_code', 0)] *)
Definition getattr_status_code (response : option Response) : Z :=
  match response with
  | Some r => status_code r
  | None => 0%Z
  end.

(** The body of the [try], at a moment given by the earlier fetches. *)
Definition get_headings_try (U : Tables) (W : Web) (earlier : list str)
    (url : str) (keywords : option (list str)) : result Headings :=
  response ← requests_get W earlier url;
  _ ← raise_for_status U response;
  let status_code := status_code response in
  soup ← parse W (text response);
  let headings := find_all heading_names soup in
  let page_title :=
    match find (u "title") soup with
    | Some t => strip U (elem_text t)
    | None => u "No Title"
    end in
  let meta_desc_tag := find_attr (u "meta") (u "name") (u "description") soup in
  let meta_desc :=
    match meta_desc_tag with
    | Some m =>
        match attrs m !! u "content" with
        | Some c => strip U c
        | None => u "No Meta Description"
        end
    | None => u "No Meta Description"
    end in
  let '(counts, total, structure) :=
    count_headings U headings initial_counts 0 [] in
  keyword_counts ←
    (match keywords_given keywords with
     | [] => Ok ∅
     | kws => count_keywords U (lower U (get_text soup)) kws ∅
     end);
  Ok {| total := total; counts := counts; structure := structure;
        page_title := page_title; http_status := status_code;
        meta_desc := meta_desc; keyword_counts := keyword_counts |}.

(** The two ways a fetch fails with a [RequestException]: [requests.get]
    raises it, or the status is one [raise_for_status] rejects. *)
Definition fetch_fails (U : Tables) (W : Web) (earlier : list str)
    (url msg : str) (response : option Response) : Prop :=
  requests_get W earlier url = Raise (RequestException msg response)
  \/ exists r, requests_get W earlier url = Ok r
               /\ raise_for_status U r = Raise (RequestException msg response).

(** The value returned by the [except] clause. *)
Definition degraded (response : option Response) : Headings :=
  {| total := 0; counts := ∅; structure := []; page_title := u "Error";
     http_status := getattr_status_code response; meta_desc := u "Error";
     keyword_counts := ∅ |}.

(** [get_headings]: the fetch is logged, a [RequestException] is shown
    and answered with the degraded tuple, any other exception leaves the
    function. *)
Definition get_headings (U : Tables) (W : Web) (url : str)
    (keywords : option (list str)) (w : World) : result Headings * World :=
  let earlier := fetched w in
  let w := record_fetch url w in
  match get_headings_try U W earlier url keywords with
  | Raise (RequestException msg response) =>
      (Ok (degraded response),
       show (st_error (u "Error fetching " ++ url ++ u ": " ++ msg)) w)
  | r => (r, w)
  end.

(** What the extractor puts into [structure]: a level-tag and a text with
    its ends trimmed. *)
Definition extracted_node (U : Tables) (p : str * str) : Prop :=
  Tree.is_level_tag (fst p) /\ exists s, snd p = strip U s.

(** [sum(counts.values())] *)
Definition sum_values (m : gmap str nat) : nat :=
  map_fold (fun _ v acc => v + acc) 0 m.

End Extractor.

(** ** Driver: the "Analyze Headings" handler *)

Module Driver.
Import PyStr Extractor.

(** A cell of a summary row: a string or an integer. *)
Inductive cell :=
| CStr (s : str)
| CInt (n : Z).

(** The spreadsheet [pd.read_excel] returns: labelled columns, a missing
    cell being [None] and any other cell its [str] form. *)
Record DataFrame := { columns : list (str * list (option str)) }.

(** [label in df.columns] and [df[label]] *)
Definition column (label : str) (df : DataFrame) : option (list (option str)) :=
  snd <$> List.find (fun c => bool_decide (fst c = label)) (columns df).

(** [.dropna().astype(str).tolist()] *)
Definition dropna_tolist (cells : list (option str)) : list str :=
  omap id cells.

(** What the form holds when the button is pressed.  [uploaded_file] is
    [None] without an upload, and otherwise what [pd.read_excel] makes of
    the file: a frame or an exception. *)
Record Inputs := {
  urls_input : str;
  uploaded_file : option (result DataFrame);
  enable_keyword_search : bool;
  keyword_input : str
}.

(** [[x.strip() for x in s.split("\n") if x.strip()]] *)
Definition stripped_lines (U : Tables) (s : str) : list str :=
  List.map (strip U) (List.filter (fun x => truthy (strip U x)) (split_lines s)).

(** The keyword list of the form, at most five entries. *)
Definition keywords_of (U : Tables) (inp : Inputs) (w : World) : list str * World :=
  if enable_keyword_search inp then
    let w := show (st_info (u "Enter up to 5 keywords to search for in the pages (one per line)")) w in
    if truthy (keyword_input inp)
    then (firstn 5 (stripped_lines U (keyword_input inp)), w)
    else ([], w)
  else ([], w).

(** [list(set(urls))]: the distinct elements, in an order the language
    does not fix (here the order of [elements]). *)
Definition list_set (urls : list str) : list str :=
  elements (list_to_set urls : gset str).

(** URLs of the text area. *)
Definition text_urls (U : Tables) (inp : Inputs) : list str :=
  if truthy (urls_input inp) then stripped_lines U (urls_input inp) else [].

(** The column of the spreadsheet the handler reads: column ['A'], else
    the first one (with a warning), else [IndexError]. *)
Definition sheet_urls (U : Tables) (df : DataFrame) (w : World)
  : result (list str) * World :=
  match column (u "A") df with
  | Some cells => (Ok (dropna_tolist cells), w)
  | None =>
      let w := show (st_warning (u "No column 'A' found in the Excel file. Using the first column instead.")) w in
      match columns df with
      | c :: _ => (Ok (dropna_tolist (snd c)), w)
      | [] => (Raise (IndexError (iloc_error_text U)), w)
      end
  end.

(** The URLs the spreadsheet contributes, apart from the warning. *)
Definition sheet_column (U : Tables) (df : DataFrame) : result (list str) :=
  match column (u "A") df with
  | Some cells => Ok (dropna_tolist cells)
  | None =>
      match columns df with
      | c :: _ => Ok (dropna_tolist (snd c))
      | [] => Raise (IndexError (iloc_error_text U))
      end
  end.

(** Lines 91-106: the list of URLs to analyse. *)
Definition collect_urls (U : Tables) (inp : Inputs) (w : World) : list str * World :=
  let urls := text_urls U inp in
  match uploaded_file inp with
  | None => (urls, w)
  | Some (Raise e) =>
      (urls, show (st_error (u "Error reading Excel file: " ++ str_exn e)) w)
  | Some (Ok df) =>
      match sheet_urls U df w with
      | (Ok extra, w) => (list_set (urls ++ extra), w)
      | (Raise e, w) =>
          (urls, show (st_error (u "Error reading Excel file: " ++ str_exn e)) w)
      end
  end.

(** [counts.get(tag, 0)] *)
Definition get0 (m : gmap str nat) (k : str) : Z :=
  Z.of_nat (default 0 (m !! k)).

(** The summary row of one URL. *)
Definition make_row (url : str) (h : Headings) (enable : bool)
    (keywords : list str) : gmap str cell :=
  let row : gmap str cell :=
    <[u "H6" := CInt (get0 (counts h) (u "H6"))]> (
    <[u "H5" := CInt (get0 (counts h) (u "H5"))]> (
    <[u "H4" := CInt (get0 (counts h) (u "H4"))]> (
    <[u "H3" := CInt (get0 (counts h) (u "H3"))]> (
    <[u "H2" := CInt (get0 (counts h) (u "H2"))]> (
    <[u "H1" := CInt (get0 (counts h) (u "H1"))]> (
    <[u "Total Headings" := CInt (Z.of_nat (total h))]> (
    <[u "Meta Description" := CStr (meta_desc h)]> (
    <[u "HTTP Status" := CInt (http_status h)]> (
    <[u "Title" := CStr (page_title h)]> (
    <[u "URL" := CStr url]> ∅)))))))))) in
  if enable then
    fold_left (fun row keyword =>
                 <[keyword := CInt (get0 (keyword_counts h) keyword)]> row)
              keywords row
  else row.

(** [st.session_state['results']] *)
Record Results := {
  data : list (gmap str cell);
  structures : gmap str (list (str * str))
}.

(** [for url in urls:] *)
Fixpoint analyze_loop (U : Tables) (W : Web) (urls : list str) (enable : bool)
    (keywords : list str) (acc : Results) (w : World) : result Results * World :=
  match urls with
  | [] => (Ok acc, w)
  | url :: rest =>
      match get_headings U W url (if enable then Some keywords else None) w with
      | (Ok h, w) =>
          analyze_loop U W rest enable keywords
            {| data := data acc ++ [make_row url h enable keywords];
               structures := <[url := structure h]> (structures acc) |} w
      | (Raise e, w) => (Raise e, w)
      end
  end.

(** The handler of the button; [None] when there was nothing to do. *)
Definition analyze (U : Tables) (W : Web) (inp : Inputs) (w : World)
  : result (option Results) * World :=
  let '(keywords, w) := keywords_of U inp w in
  let '(urls, w) := collect_urls U inp w in
  match urls with
  | [] =>
      (Ok None,
       show (st_warning (u "Please enter at least one URL or upload a valid Excel file.")) w)
  | _ =>
      let '(r, w) :=
        analyze_loop U W urls (enable_keyword_search inp) keywords
          {| data := []; structures := ∅ |} w in
      (Some <$> r, w)
  end.

End Driver.

(** ** Display: the results section *)

Module Display.
Import Driver.

(** Lines 139-156: when results with at least one row are stored, the tree
    of every URL of [structures] is rendered; an exception of [build_tree]
    would end the script.  The pairs are (URL, tree text), in the order of
    the keys of [structures]. *)
Definition tree_views (U : Tables) (session : option Results)
  : result (list (str * str)) :=
  match session with
  | None => Ok []
  | Some results =>
      match data results with
      | [] => Ok []
      | _ :: _ =>
          map_result
            (fun p : str * list (str * str) =>
               tree_text ← Tree.build_tree U (snd p); Ok (fst p, tree_text))
            (map_to_list (structures results))
      end
  end.

End Display.

(** ** Notions used to state properties *)

Module Notions.
Import PyStr Extractor.

(** The node a heading element stands for. *)
Definition node_of (U : Tables) (e : Element) : str * str :=
  (upper U (name e), strip U (elem_text e)).

(** Number of nodes with a given tag. *)
Definition count_tag (tag : str) (structure : list (str * str)) : nat :=
  length (List.filter (fun p : str * str => bool_decide (fst p = tag)) structure).

(** A network whose failures are all request exceptions. *)
Definition requests_only (W : Web) : Prop :=
  forall earlier url e, requests_get W earlier url = Raise e ->
                        exists msg response, e = RequestException msg response.

(** A parser that accepts every page the network delivers. *)
Definition parser_accepts (W : Web) : Prop :=
  forall earlier url response,
    requests_get W earlier url = Ok response ->
    exists soup, BeautifulSoup W (text response) = Parsed soup.

(** A keyword the extractor skips: nothing but whitespace. *)
Definition blank (U : Tables) (s : str) : bool := negb (truthy (strip U s)).

(** Every character of the string satisfies the test. *)
Definition all_chars (f : N -> bool) (s : str) : bool := forallb f s.

(** The moment of a run at which the given URLs have been fetched. *)
Definition at_moment (earlier : list str) : World :=
  {| fetched := earlier; shown := [] |}.

(** An optional character that, when present, is ASCII. *)
Definition ascii_opt (c : option N) : Prop := forall x, c = Some x -> (x < 128)%N.

(** Equality of strings is decidable. *)
Definition str_eq_dec : forall a b : str, {a = b} + {a <> b} :=
  List.list_eq_dec N.eq_dec.

(** The last character of a string, if any. *)
Fixpoint last_char (s : str) : option N :=
  match s with
  | [] => None
  | [c] => Some c
  | _ :: r => last_char r
  end.

(** No whitespace at either end: what [strip] leaves. *)
Definition no_outer_space (U : Tables) (s : str) : Prop :=
  (forall c, head s = Some c -> is_space U c = false)
  /\ (forall c, last_char s = Some c -> is_space U c = false).

(** Number of literal characters of a compiled pattern. *)
Fixpoint literals (atoms : list Re.atom) : nat :=
  match atoms with
  | [] => 0
  | Re.WordBoundary :: r => literals r
  | Re.Lit _ :: r => S (literals r)
  end.

(** A tag [build_tree] can place: its second character is a digit. *)
Definition digit_tag (U : Tables) (tag : str) : Prop :=
  exists c d, nth_error tag 1 = Some c /\ decimal U c = Some d.

(** The exception [int(tag[1])] raises on any other tag. *)
Definition tag_error (U : Tables) (tag : str) : exn :=
  match nth_error tag 1 with
  | None => IndexError (u "string index out of range")
  | Some c => ValueError (int_error_text U c)
  end.

(** A form entry as the driver passes it on: not empty, trimmed, on one
    line. *)
Definition clean_entry (U : Tables) (s : str) : Prop :=
  s <> [] /\ strip U s = s /\ count_char nl_char s = 0.

End Notions.

(** ** Sample inputs *)

Module Samples.
Import Extractor.

(** Tables that follow Python on ASCII and treat every other character as
    an ordinary symbol; enough to run the code on ASCII text. *)
Definition ascii_tables : Tables :=
  {| is_space := fun c => (c <? 128)%N && Ascii7.space c;
     is_word := fun c => (c <? 128)%N && Ascii7.word c;
     decimal := fun c => if (c <? 128)%N then Ascii7.digit_value c else None;
     lower := List.map Ascii7.lower_char;
     upper := List.map Ascii7.upper_char;
     http_error_text := fun r =>
       [48 + Z.to_N (status_code r / 100 mod 10); 48 + Z.to_N (status_code r / 10 mod 10);
        48 + Z.to_N (status_code r mod 10)]%N
       ++ (if (status_code r <? 500)%Z then u " Client Error: " else u " Server Error: ")
       ++ reason r ++ u " for url: " ++ response_url r;
     int_error_text := fun c =>
       u "invalid literal for int() with base 10: '" ++ [c] ++ u "'";
     min_error_text := u "min() arg is an empty sequence";
     iloc_error_text := u "single positional indexer is out-of-bounds" |}.

(** A page used to run the extractor on: a title, a description, four
    headings and a paragraph. *)
Definition sample_soup : Soup :=
  {| descendants :=
       [ {| name := u "title"; elem_text := u " Tools "; attrs := ∅ |};
         {| name := u "meta"; elem_text := [];
            attrs := <[u "name" := u "description"]>
                       (<[u "content" := u "All about SEO"]> ∅) |};
         {| name := u "h1"; elem_text := u "SEO"; attrs := ∅ |};
         {| name := u "h2"; elem_text := u " seo-tools "; attrs := ∅ |};
         {| name := u "p"; elem_text := u "seo."; attrs := ∅ |};
         {| name := u "h2"; elem_text := u "More"; attrs := ∅ |};
         {| name := u "h4"; elem_text := u "Deep"; attrs := ∅ |} ];
     get_text := u "SEO seo-tools seo." |}.

(** Three responses: a page, a missing page and a page the parser
    rejects. *)
Definition page_response : Response :=
  {| status_code := 200; reason := u "OK"; response_url := u "http://ok";
     text := u "<html>" |}.

Definition gone_response : Response :=
  {| status_code := 404; reason := u "Not Found"; response_url := u "http://gone";
     text := [] |}.

Definition odd_response : Response :=
  {| status_code := 200; reason := u "OK"; response_url := u "http://odd";
     text := u "<![odd]>" |}.

(** A network with one good page, one missing page, one page the parser
    rejects and nothing else; the parser knows one page. *)
Definition sample_get (earlier : list str) (url : str) : result Response :=
  if bool_decide (url = u "http://ok") then Ok page_response
  else if bool_decide (url = u "http://gone") then Ok gone_response
  else if bool_decide (url = u "http://odd")
       then Ok odd_response
  else Raise (RequestException (u "timed out") None).

Definition sample_parser (html : str) : parsed :=
  if bool_decide (html = u "<![odd]>")
  then Rejected (u "ParserRejectedMarkup")
  else Parsed sample_soup.

Definition sample_web : Web :=
  {| requests_get := sample_get; BeautifulSoup := sample_parser |}.

(** The same network without the page the parser rejects. *)
Definition plain_get (earlier : list str) (url : str) : result Response :=
  if bool_decide (url = u "http://ok") then Ok page_response
  else if bool_decide (url = u "http://gone") then Ok gone_response
  else Raise (RequestException (u "timed out") None).

Definition plain_web : Web :=
  {| requests_get := plain_get; BeautifulSoup := fun _ => Parsed sample_soup |}.

(** A network that delivers the page on the first fetch only and times out
    afterwards. *)
Definition flaky_get (earlier : list str) (url : str) : result Response :=
  match earlier with
  | [] => Ok page_response
  | _ => Raise (RequestException (u "timed out") None)
  end.

Definition flaky_web : Web :=
  {| requests_get := flaky_get; BeautifulSoup := fun _ => Parsed sample_soup |}.

(** A form with a URL typed twice and a spreadsheet that repeats one of
    the typed URLs. *)
Definition sample_frame : Driver.DataFrame :=
  {| Driver.columns :=
       [(u "A", [Some (u "http://gone"); None; Some (u "http://ok");
                 Some (u "http://down")])] |}.

Definition sample_inputs : Driver.Inputs :=
  {| Driver.urls_input :=
       u "http://ok" ++ PyStr.nl ++ u " http://gone " ++ PyStr.nl ++ u "http://ok";
     Driver.uploaded_file := Some (Ok sample_frame);
     Driver.enable_keyword_search := false;
     Driver.keyword_input := [] |}.

(** The same text area without an upload. *)
Definition sample_inputs_text_only : Driver.Inputs :=
  {| Driver.urls_input := u "http://ok" ++ PyStr.nl ++ u "http://ok";
     Driver.uploaded_file := None;
     Driver.enable_keyword_search := false;
     Driver.keyword_input := [] |}.

End Samples.

(** * Properties *)

(** Replace the literals of the goal by their code points. *)
Ltac lit :=
  repeat match goal with
         | |- context [u ?s] =>
             let v := eval vm_compute in (u s) in change (u s) with v
         end.

(** Case analysis on an ASCII character by the ranges of the letters. *)
Ltac char_cases c :=
  unfold Ascii7.word, Ascii7.lower_char, Ascii7.upper_char, Ascii7.upper_letter,
    Ascii7.lower_letter, Ascii7.digit, Ascii7.between;
  destruct (N.leb_spec 65 c); destruct (N.leb_spec c 90);
  destruct (N.leb_spec 97 c); destruct (N.leb_spec c 122);
  cbn [andb orb];
  repeat (match goal with
          | |- context [(?a <=? ?b)%N] => destruct (N.leb_spec a b)
          | |- context [(?a =? ?b)%N] => destruct (N.eqb_spec a b)
          end; cbn [andb orb]);
  try reflexivity; try lia.

(** ** Strings *)

Module StrFacts.
Import PyStr.

Lemma join_cons (x : str) (l : list str) : join (x :: l) = x ++ join l.
Proof. reflexivity. Qed.

Lemma join_app (l1 l2 : list str) : join (l1 ++ l2) = join l1 ++ join l2.
Proof. apply List.concat_app. Qed.

Lemma mul_repeat (s : str) (n : Z) : mul s n = join (repeat s (Z.to_nat n)).
Proof.
  unfold mul. induction (Z.to_nat n) as [|k IH]; [reflexivity|].
  simpl repeat. rewrite join_cons, <- IH. reflexivity.
Qed.

Lemma count_char_app c (a b : str) :
  count_char c (a ++ b) = count_char c a + count_char c b.
Proof.
  induction a as [|x a IH]; [reflexivity|].
  simpl. rewrite IH. lia.
Qed.

Lemma count_char_join_repeat c (s : str) k :
  count_char c s = 0 -> count_char c (join (repeat s k)) = 0.
Proof.
  intros Hs. induction k as [|k IH]; [reflexivity|].
  simpl repeat. rewrite join_cons, count_char_app, Hs, IH. reflexivity.
Qed.

Lemma ends_with_char_app c (a : str) d (b : str) :
  ends_with_char c (a ++ d :: b) = ends_with_char c (d :: b).
Proof.
  induction a as [|x a IH]; [reflexivity|].
  rewrite <- List.app_comm_cons. rewrite <- IH.
  destruct a; reflexivity.
Qed.

(** Splitting at the first separator. *)
Lemma split_on_first sep (s rest : str) :
  count_char sep s = 0 ->
  split_on sep (s ++ sep :: rest) = s :: split_on sep rest.
Proof.
  induction s as [|x s IH]; intros H.
  - simpl. now rewrite N.eqb_refl.
  - simpl in *.
    destruct (N.eqb x sep) eqn:E; [discriminate|].
    rewrite IH by exact H. reflexivity.
Qed.

End StrFacts.

(** ** The tables *)

Module TableFacts.
Import Samples.

Lemma ascii_tables_python : python_on_ascii ascii_tables.
Proof.
  unfold python_on_ascii, ascii_tables. simpl.
  repeat split; try reflexivity.
  - intros c Hc. apply N.ltb_lt in Hc. now rewrite Hc.
  - intros c Hc. apply N.ltb_lt in Hc. now rewrite Hc.
  - intros c Hc. apply N.ltb_lt in Hc. now rewrite Hc.
Qed.

Lemma ascii_tables_range : decimal_range ascii_tables.
Proof.
  intros c d. unfold ascii_tables. simpl.
  destruct (c <? 128)%N; [|discriminate].
  unfold Ascii7.digit_value, Ascii7.digit, Ascii7.between.
  destruct ((48 <=? c)%N && (c <=? 57)%N) eqn:E; [|discriminate].
  intros [= <-]. apply andb_true_iff in E as [H1 H2].
  apply N.leb_le in H1, H2. lia.
Qed.

End TableFacts.

(** ** Tree renderer *)

Module TreeFacts.
Import PyStr Tree StrFacts.

Section WithTables.
Variable U : Tables.

(** On a level-tag the parse of the second character succeeds, with a
    level between 1 and 6. *)
Lemma tag_level_level_tag tag :
  python_on_ascii U ->
  is_level_tag tag ->
  tag_level U tag = Ok (numeric_level U tag) /\ (1 <= numeric_level U tag <= 6)%Z.
Proof.
  intros (_ & _ & Hd & _) H.
  unfold is_level_tag, level_tags in H. simpl in H.
  unfold tag_level, numeric_level, second_char, int_of_char.
  repeat (destruct H as [<-|H];
          [lit; cbn [nth_error mbind result_bind]; rewrite Hd by reflexivity;
           split; [reflexivity | vm_compute; split; discriminate]|]).
  destruct H.
Qed.

(** Whenever the parse succeeds it is the numeric level. *)
Lemma tag_level_numeric tag n : tag_level U tag = Ok n -> n = numeric_level U tag.
Proof.
  unfold tag_level, second_char, numeric_level, int_of_char.
  destruct (nth_error tag 1) as [c|]; simpl; [|discriminate].
  destruct (decimal U c); [|discriminate]. now intros [= <-].
Qed.

Lemma map_result_levels structure :
  python_on_ascii U ->
  Forall (fun p : node => is_level_tag (fst p)) structure ->
  map_result (fun p : node => tag_level U (fst p)) structure
  = Ok (List.map (fun p : node => numeric_level U (fst p)) structure).
Proof.
  intros HU. induction 1 as [|p l Hp _ IH]; simpl; [reflexivity|].
  destruct (tag_level_level_tag _ HU Hp) as [-> _]. simpl.
  rewrite IH. reflexivity.
Qed.

Lemma fold_right_min_shift (x a : Z) (l : list Z) :
  fold_right Z.min (Z.min x a) l = Z.min a (fold_right Z.min x l).
Proof. induction l as [|y l IH]; cbn -[Z.min]; [lia | rewrite IH; lia]. Qed.

Lemma fold_left_min_right (l : list Z) (x : Z) :
  fold_left Z.min l x = fold_right Z.min x l.
Proof.
  revert x. induction l as [|a l IH]; intros x; cbn -[Z.min]; [reflexivity|].
  rewrite IH. apply fold_right_min_shift.
Qed.

(** The [min(...)] of the source is the minimum of the specification. *)
Lemma py_min_levels (p : node) (l : list node) :
  py_min U (List.map (fun p : node => numeric_level U (fst p)) (p :: l))
  = Ok (min_level_of U (p :: l)).
Proof.
  destruct p as [tag text]. cbn -[Z.min]. rewrite fold_left_min_right. f_equal.
  induction l as [|q l IH]; cbn -[Z.min]; [reflexivity | now rewrite IH].
Qed.

Lemma min_level_of_le (structure : list node) (p : node) :
  In p structure -> (min_level_of U structure <= numeric_level U (fst p))%Z.
Proof.
  destruct structure as [|[tag text] rest]; [intros []|].
  unfold min_level_of.
  assert (Hhd : (fold_right (fun p acc => Z.min (numeric_level U (fst p)) acc)
                   (numeric_level U tag) rest <= numeric_level U tag)%Z).
  { induction rest as [|q rest IH]; cbn -[Z.min]; lia. }
  intros [<-|Hin]; [exact Hhd|]. clear Hhd.
  induction rest as [|q rest IH]; [destruct Hin|].
  cbn -[Z.min]. destruct Hin as [<-|Hin]; [lia | specialize (IH Hin); lia].
Qed.

Lemma min_level_of_attained (structure : list node) :
  structure <> [] ->
  exists p, In p structure /\ numeric_level U (fst p) = min_level_of U structure.
Proof.
  destruct structure as [|[tag text] rest]; [congruence|]. intros _.
  unfold min_level_of.
  induction rest as [|q rest IH].
  - exists (tag, text). split; [now left | reflexivity].
  - destruct IH as (p & Hin & Hp). cbn -[Z.min].
    destruct (Z.min_spec (numeric_level U (fst q))
                (fold_right (fun p acc => Z.min (numeric_level U (fst p)) acc)
                   (numeric_level U tag) rest)) as [[_ E]|[_ E]]; rewrite E.
    + exists q. split; [right; now left | reflexivity].
    + exists p. split; [|exact Hp].
      destruct Hin as [<-|Hin]; [now left | right; now right].
Qed.

(** The loop appends one formatted line per node whose tag can be parsed,
    in order. *)
Lemma build_tree_loop_lines (m : Z) (structure : list node) (tree : str) :
  Forall (fun p : node => exists n, tag_level U (fst p) = Ok n) structure ->
  build_tree_loop U m structure tree
  = Ok (tree ++ join (List.map
          (fun p : node => rendered_line (Z.to_nat (numeric_level U (fst p) - m))
                             (fst p) (snd p))
          structure)).
Proof.
  intros H. revert tree.
  induction H as [|[tag text] l [n Hp] _ IH]; intros tree.
  - simpl. now rewrite List.app_nil_r.
  - simpl in Hp. pose proof (tag_level_numeric _ _ Hp) as ->.
    cbn [build_tree_loop List.map fst snd]. rewrite Hp. cbn [mbind result_bind].
    rewrite IH, join_cons, <- List.app_assoc. unfold fmt_line, rendered_line.
    now rewrite mul_repeat.
Qed.

(** *** The transition system *)

Lemma step_deterministic c c1 c2 : step U c c1 -> step U c c2 -> c1 = c2.
Proof.
  intros H1 H2.
  destruct H1; inversion H2; subst; try reflexivity; congruence.
Qed.

Lemma exit_terminal r c : ~ step U (Exit r) c.
Proof. intros H. inversion H. Qed.

(** Complete runs from one configuration end in one outcome. *)
Lemma rtc_step_exit_unique c r1 r2 :
  rtc (step U) c (Exit r1) -> rtc (step U) c (Exit r2) -> r1 = r2.
Proof.
  intros H1. revert r2.
  remember (Exit r1) as c1 eqn:E.
  induction H1 as [c|c c' c1 Hs H1 IH]; intros r2 H2; subst.
  - apply rtc_inv in H2 as [[= ->]|(y & Hy & _)]; [reflexivity|].
    now apply exit_terminal in Hy.
  - apply rtc_inv in H2 as [->|(y & Hy & H2)].
    + now apply exit_terminal in Hs.
    + rewrite (step_deterministic _ _ _ Hy Hs) in H2. now apply IH.
Qed.

Lemma loop_runs m (l : list node) tree :
  rtc (step U) (Loop m l tree) (Exit (build_tree_loop U m l tree)).
Proof.
  revert tree. induction l as [|[tag text] l IH]; intros tree; simpl.
  - apply rtc_once. constructor.
  - destruct (tag_level U tag) as [n|e] eqn:E; simpl.
    + eapply rtc_l; [apply step_iter; exact E | apply IH].
    + apply rtc_once. now apply step_iter_raise.
Qed.

(** The function is the outcome of the one complete run. *)
Lemma build_tree_runs (structure : list node) : runs U structure (build_tree U structure).
Proof.
  unfold runs. destruct structure as [|x l].
  - apply rtc_once. constructor.
  - unfold build_tree.
    destruct (map_result (fun p : node => tag_level U (fst p)) (x :: l)) as [levels|e] eqn:E.
    + change (rtc (step U) (Entry (x :: l))
                (Exit (m ← py_min U levels; build_tree_loop U m (x :: l) []))).
      destruct (py_min U levels) as [m|e] eqn:Em.
      * eapply rtc_l; [eapply step_min; eassumption|]. apply loop_runs.
      * apply rtc_once. eapply step_min_raise_empty; eassumption.
    + apply rtc_once. now apply step_min_raise_level.
Qed.

End WithTables.

End TreeFacts.

(** ** Any tables that follow Python on ASCII agree on ASCII text *)

Module AsciiFacts.
Import PyStr Re Extractor Notions Samples.

Lemma ascii_str_check (s : str) :
  forallb (fun c => (c <? 128)%N) s = true -> ascii_str s.
Proof.
  intros H. apply List.Forall_forall. intros c Hc.
  rewrite List.forallb_forall in H. now apply N.ltb_lt, H.
Qed.

Lemma lower_char_ascii c : (c < 128 -> Ascii7.lower_char c < 128)%N.
Proof. char_cases c. Qed.

Lemma upper_char_ascii c : (c < 128 -> Ascii7.upper_char c < 128)%N.
Proof. char_cases c. Qed.

Lemma lower_char_idem c : Ascii7.lower_char (Ascii7.lower_char c) = Ascii7.lower_char c.
Proof. char_cases c. Qed.

Lemma lower_upper_char c : Ascii7.lower_char (Ascii7.upper_char c) = Ascii7.lower_char c.
Proof. char_cases c. Qed.

Lemma word_lower_char c : Ascii7.word (Ascii7.lower_char c) = Ascii7.word c.
Proof. char_cases c. Qed.

Lemma ascii_str_lower (s : str) : ascii_str s -> ascii_str (List.map Ascii7.lower_char s).
Proof.
  unfold ascii_str. intros H. apply List.Forall_map.
  eapply List.Forall_impl; [|exact H]. intros c. apply lower_char_ascii.
Qed.

Lemma ascii_str_upper (s : str) : ascii_str s -> ascii_str (List.map Ascii7.upper_char s).
Proof.
  unfold ascii_str. intros H. apply List.Forall_map.
  eapply List.Forall_impl; [|exact H]. intros c. apply upper_char_ascii.
Qed.

Section WithTables.
Variable U : Tables.
Hypothesis HU : python_on_ascii U.

Lemma is_word_ascii c : (c < 128)%N -> is_word U c = is_word ascii_tables c.
Proof.
  intros Hc. destruct HU as (_ & Hw & _). rewrite (Hw c Hc). simpl.
  apply N.ltb_lt in Hc. now rewrite Hc.
Qed.

Lemma is_space_ascii c : (c < 128)%N -> is_space U c = is_space ascii_tables c.
Proof.
  intros Hc. destruct HU as (Hs & _). rewrite (Hs c Hc). simpl.
  apply N.ltb_lt in Hc. now rewrite Hc.
Qed.

Lemma decimal_ascii c : (c < 128)%N -> decimal U c = decimal ascii_tables c.
Proof.
  intros Hc. destruct HU as (_ & _ & Hd & _). rewrite (Hd c Hc). simpl.
  apply N.ltb_lt in Hc. now rewrite Hc.
Qed.

Lemma lower_ascii s : ascii_str s -> lower U s = lower ascii_tables s.
Proof. intros Hs. destruct HU as (_ & _ & _ & Hl & _). now rewrite (Hl s Hs). Qed.

Lemma upper_ascii s : ascii_str s -> upper U s = upper ascii_tables s.
Proof. intros Hs. destruct HU as (_ & _ & _ & _ & Hu). now rewrite (Hu s Hs). Qed.

Lemma lower_U_map s : ascii_str s -> lower U s = List.map Ascii7.lower_char s.
Proof. intros Hs. destruct HU as (_ & _ & _ & Hl & _). exact (Hl s Hs). Qed.

Lemma upper_U_map s : ascii_str s -> upper U s = List.map Ascii7.upper_char s.
Proof. intros Hs. destruct HU as (_ & _ & _ & _ & Hu). exact (Hu s Hs). Qed.

(** On ASCII strings lower-casing is idempotent and undoes upper-casing. *)
Lemma lower_idem_ascii s : ascii_str s -> lower U (lower U s) = lower U s.
Proof.
  intros Hs. rewrite (lower_U_map s Hs).
  rewrite lower_U_map by (now apply ascii_str_lower).
  rewrite List.map_map. apply List.map_ext. intros c. apply lower_char_idem.
Qed.

Lemma lower_upper_ascii s : ascii_str s -> lower U (upper U s) = lower U s.
Proof.
  intros Hs. rewrite (upper_U_map s Hs), (lower_U_map s Hs).
  rewrite lower_U_map by (now apply ascii_str_upper).
  rewrite List.map_map. apply List.map_ext. intros c. apply lower_upper_char.
Qed.

(** A run of ASCII word characters stays one when lower-cased. *)
Lemma all_word_lower_ascii s :
  ascii_str s -> all_chars Ascii7.word s = true ->
  all_chars (is_word U) (lower U s) = true.
Proof.
  intros Hs Hw. rewrite (lower_U_map s Hs). unfold all_chars in *.
  induction Hs as [|c r Hc _ IH]; [reflexivity|].
  simpl in Hw. apply andb_true_iff in Hw as [Hcw Hrw].
  simpl. rewrite (IH Hrw), andb_true_r.
  destruct HU as (_ & Hword & _).
  rewrite (Hword _ (lower_char_ascii c Hc)), word_lower_char. exact Hcw.
Qed.

Lemma lstrip_ascii s : ascii_str s -> lstrip U s = lstrip ascii_tables s.
Proof.
  induction 1 as [|c r Hc _ IH]; [reflexivity|].
  cbn [lstrip]. rewrite (is_space_ascii c Hc), IH. reflexivity.
Qed.

Lemma rstrip_ascii s : ascii_str s -> rstrip U s = rstrip ascii_tables s.
Proof.
  induction 1 as [|c r Hc _ IH]; [reflexivity|].
  cbn [rstrip]. rewrite (is_space_ascii c Hc), IH. reflexivity.
Qed.

Lemma lstrip_keeps_ascii V s : ascii_str s -> ascii_str (lstrip V s).
Proof.
  induction 1 as [|c r Hc Hr IH]; [constructor|].
  cbn [lstrip]. destruct (is_space V c); [exact IH | now constructor].
Qed.

Lemma strip_ascii s : ascii_str s -> strip U s = strip ascii_tables s.
Proof.
  intros Hs. unfold strip. rewrite (lstrip_ascii s Hs).
  apply rstrip_ascii, lstrip_keeps_ascii, Hs.
Qed.

Lemma word_at_ascii c : ascii_opt c -> word_at U c = word_at ascii_tables c.
Proof.
  destruct c as [x|]; [|reflexivity]. intros H. apply is_word_ascii, H. reflexivity.
Qed.

Lemma at_boundary_ascii prev s :
  ascii_opt prev -> ascii_str s ->
  at_boundary U prev s = at_boundary ascii_tables prev s.
Proof.
  intros Hp Hs. unfold at_boundary. rewrite (word_at_ascii prev Hp).
  f_equal. apply word_at_ascii. intros x Hx.
  destruct Hs as [|c r Hc _]; [discriminate|]. simpl in Hx. now injection Hx as <-.
Qed.

Lemma match_here_ascii atoms prev s :
  ascii_opt prev -> ascii_str s ->
  match_here U atoms prev s = match_here ascii_tables atoms prev s.
Proof.
  revert prev s. induction atoms as [|[|c] atoms IH]; intros prev s Hp Hs.
  - reflexivity.
  - cbn [match_here]. rewrite (at_boundary_ascii prev s Hp Hs), IH by assumption.
    reflexivity.
  - cbn [match_here]. destruct Hs as [|d t Hd Ht]; [reflexivity|].
    rewrite IH; [reflexivity | | exact Ht].
    intros x [= <-]. exact Hd.
Qed.

Lemma scan_ascii atoms prev s skip :
  ascii_opt prev -> ascii_str s ->
  scan U atoms prev s skip = scan ascii_tables atoms prev s skip.
Proof.
  intros Hp Hs. revert prev skip Hp.
  induction Hs as [|c r Hc Hr IH]; intros prev skip Hp.
  - destruct skip; [|reflexivity]. cbn [scan].
    assert (Hn : ascii_str []) by constructor.
    now rewrite (match_here_ascii atoms prev [] Hp Hn).
  - assert (Hc' : ascii_opt (Some c)) by (intros x [= <-]; exact Hc).
    assert (Hcr : ascii_str (c :: r)) by (constructor; assumption).
    destruct skip as [|k]; cbn [scan].
    + rewrite (match_here_ascii atoms prev (c :: r) Hp Hcr).
      destruct (match_here ascii_tables atoms prev (c :: r)); now rewrite IH.
    + now apply IH.
Qed.

(** Counting an ASCII keyword in an ASCII text does not depend on the rest
    of the tables. *)
Lemma count_keyword_ascii text_content keyword :
  ascii_str text_content -> ascii_str keyword ->
  count_keyword U text_content keyword = count_keyword ascii_tables text_content keyword.
Proof.
  intros Ht Hk. unfold count_keyword, pattern_of, findall_count.
  rewrite (lower_ascii keyword Hk).
  destruct (compile _) as [atoms|]; [|reflexivity].
  f_equal. apply scan_ascii; [discriminate | exact Ht].
Qed.

End WithTables.

End AsciiFacts.

(** ** Claims about the tree renderer *)

Module TreeClaims.
Import PyStr Tree StrFacts TreeFacts TableFacts Samples.

Section WithTables.
Variable U : Tables.

Lemma level_tags_parse (structure : list node) :
  python_on_ascii U ->
  Forall (fun p : node => is_level_tag (fst p)) structure ->
  Forall (fun p : node => exists n, tag_level U (fst p) = Ok n) structure.
Proof.
  intros HU H. eapply List.Forall_impl; [|exact H].
  intros p Hp. destruct (tag_level_level_tag U _ HU Hp) as [E _]. eauto.
Qed.

(** The rendering of a non-empty sequence of level-tagged nodes. *)
Lemma build_tree_render (structure : list node) :
  python_on_ascii U ->
  structure <> [] ->
  Forall (fun p : node => is_level_tag (fst p)) structure ->
  build_tree U structure
  = Ok (join (List.map
          (fun p : node => rendered_line (Z.to_nat (indent_units U structure (fst p)))
                             (fst p) (snd p))
          structure)).
Proof.
  intros HU Hne Hall. destruct structure as [|x l]; [congruence|].
  unfold build_tree. rewrite (map_result_levels U _ HU Hall).
  cbn [mbind result_bind]. rewrite py_min_levels. cbn [mbind result_bind].
  rewrite (build_tree_loop_lines U _ _ _ (level_tags_parse _ HU Hall)). reflexivity.
Qed.

Lemma rendered_line_body k tag text :
  rendered_line k tag text = line_body k tag text ++ nl.
Proof.
  unfold rendered_line, line_body. now rewrite <- !List.app_assoc.
Qed.

Lemma level_tag_no_newline tag : is_level_tag tag -> count_char nl_char tag = 0.
Proof.
  unfold is_level_tag, level_tags. simpl. intros H.
  repeat (destruct H as [<-|H]; [reflexivity|]). destruct H.
Qed.

Lemma line_body_newlines k tag text :
  is_level_tag tag ->
  count_char nl_char (line_body k tag text) = count_char nl_char text.
Proof.
  intros Ht. unfold line_body.
  rewrite !count_char_app, (level_tag_no_newline _ Ht).
  rewrite count_char_join_repeat by reflexivity. reflexivity.
Qed.

(** Newlines of the rendering: one per node plus those inside the texts. *)
Lemma rendering_line_count (f : node -> nat) (l : list node) :
  Forall (fun p : node => is_level_tag (fst p)) l ->
  line_count (join (List.map (fun p : node => rendered_line (f p) (fst p) (snd p)) l))
  = length l + list_sum (List.map (fun p : node => count_char nl_char (snd p)) l).
Proof.
  unfold line_count. induction 1 as [|p l Hp _ IH]; [reflexivity|].
  cbn [List.map length]. rewrite join_cons, count_char_app, IH.
  rewrite rendered_line_body, count_char_app, (line_body_newlines _ _ _ Hp).
  simpl. lia.
Qed.

Lemma rendering_ends_with_newline (f : node -> nat) (l : list node) :
  l <> [] ->
  ends_with_char nl_char
    (join (List.map (fun p : node => rendered_line (f p) (fst p) (snd p)) l)) = true.
Proof.
  induction l as [|p l IH]; [congruence|]. intros _.
  cbn [List.map]. rewrite join_cons.
  destruct l as [|q l].
  - cbn [List.map join List.concat]. rewrite List.app_nil_r, rendered_line_body.
    unfold nl. rewrite ends_with_char_app. reflexivity.
  - specialize (IH ltac:(discriminate)).
    destruct (join (List.map (fun p : node => rendered_line (f p) (fst p) (snd p)) (q :: l)))
      as [|d b] eqn:E; [discriminate|].
    now rewrite ends_with_char_app.
Qed.

Lemma rendering_split_lines (f : node -> nat) (l : list node) :
  Forall (fun p : node => is_level_tag (fst p)) l ->
  Forall (fun p : node => count_char nl_char (snd p) = 0) l ->
  split_lines (join (List.map (fun p : node => rendered_line (f p) (fst p) (snd p)) l))
  = List.map (fun p : node => line_body (f p) (fst p) (snd p)) l ++ [[]].
Proof.
  unfold split_lines. induction 1 as [|p l Hp _ IH]; intros Hn; [reflexivity|].
  inversion Hn as [|? ? Hp0 Hn']; subst.
  cbn [List.map]. rewrite join_cons, rendered_line_body, <- List.app_assoc.
  unfold nl. cbn [app].
  rewrite split_on_first by (rewrite line_body_newlines; assumption).
  now rewrite IH.
Qed.

Lemma no_inner_newlines (l : list node) :
  Forall (fun p : node => count_char nl_char (snd p) = 0) l ->
  list_sum (List.map (fun p : node => count_char nl_char (snd p)) l) = 0.
Proof.
  induction 1 as [|p l Hp _ IH]; [reflexivity|]. simpl. rewrite Hp. exact IH.
Qed.

(** C4 (as amended). For a non-empty sequence of nodes tagged H1..H6,
    [build_tree] returns, node by node in input order, one segment closed by
    a newline and made of [level - minLevel] two-space units, a dash and a
    space, the tag, a colon and a space, and the node's text as it is stored
    ([build_tree] does not trim it).  [minLevel] is the least numeric level
    present (a lower bound that some node attains), so no unit count is
    negative.  When no text holds a newline, each segment is exactly one
    line of the output: the output has as many lines as nodes. *)
Theorem build_tree_lines_indent (structure : list node) :
  python_on_ascii U ->
  structure <> [] ->
  Forall (fun p : node => is_level_tag (fst p)) structure ->
  build_tree U structure
  = Ok (join (List.map
          (fun p : node => rendered_line (Z.to_nat (indent_units U structure (fst p)))
                             (fst p) (snd p))
          structure))
  /\ (forall p, In p structure ->
        indent_units U structure (fst p)
        = (numeric_level U (fst p) - min_level_of U structure)%Z
        /\ (0 <= indent_units U structure (fst p))%Z)
  /\ (forall p, In p structure ->
        (min_level_of U structure <= numeric_level U (fst p))%Z)
  /\ (exists p, In p structure /\ numeric_level U (fst p) = min_level_of U structure)
  /\ (Forall (fun p : node => count_char nl_char (snd p) = 0) structure ->
      forall out, build_tree U structure = Ok out ->
        line_count out = length structure
        /\ split_lines out
           = List.map (fun p : node =>
                         line_body (Z.to_nat (indent_units U structure (fst p)))
                                   (fst p) (snd p))
                      structure ++ [[]]).
Proof.
  intros HU Hne Hall. split; [now apply build_tree_render|].
  split; [|split; [|split]].
  - intros p Hin. split; [reflexivity|].
    unfold indent_units. pose proof (min_level_of_le U _ _ Hin). lia.
  - intros p Hin. now apply min_level_of_le.
  - now apply min_level_of_attained.
  - intros Hn out E. rewrite (build_tree_render _ HU Hne Hall) in E.
    assert (join (List.map
              (fun p : node => rendered_line (Z.to_nat (indent_units U structure (fst p)))
                                 (fst p) (snd p)) structure) = out) as <- by congruence.
    split.
    + rewrite rendering_line_count by assumption.
      rewrite (no_inner_newlines _ Hn). lia.
    + now apply rendering_split_lines.
Qed.

(** C9 (as amended). For a non-empty sequence of n nodes tagged H1..H6 the
    returned string is made of n segments, one per node, each closed by a
    newline, so it ends with a newline; its number of newline-terminated
    lines is n plus the number of newlines inside the node texts, hence
    exactly n, one line per node, when no text contains a newline.  The
    message returned for the empty sequence has no trailing newline. *)
Theorem build_tree_newline_terminated (structure : list node) :
  python_on_ascii U ->
  structure <> [] ->
  Forall (fun p : node => is_level_tag (fst p)) structure ->
  exists out,
    build_tree U structure = Ok out
    /\ ends_with_char nl_char out = true
    /\ line_count out
       = length structure
         + list_sum (List.map (fun p : node => count_char nl_char (snd p)) structure)
    /\ (Forall (fun p : node => count_char nl_char (snd p) = 0) structure ->
        line_count out = length structure
        /\ split_lines out
           = List.map (fun p : node =>
                         line_body (Z.to_nat (indent_units U structure (fst p)))
                                   (fst p) (snd p))
                      structure ++ [[]])
    /\ build_tree U [] = Ok no_headings
    /\ ends_with_char nl_char no_headings = false.
Proof.
  intros HU Hne Hall. eexists. split; [now apply build_tree_render|].
  split; [now apply rendering_ends_with_newline|].
  split; [now apply rendering_line_count|].
  split; [|split; reflexivity].
  intros Hn. split.
  - rewrite rendering_line_count by assumption.
    rewrite (no_inner_newlines _ Hn). lia.
  - now apply rendering_split_lines.
Qed.

(** C10. When every tag is one of H1..H6, parsing the second character of
    each tag succeeds (with a level from 1 to 6), the minimum is taken of a
    non-empty list of levels whenever it is taken, and [build_tree] returns
    a string: it has a complete run with that value and no run that ends
    in an exception. *)
Theorem build_tree_total (structure : list node) :
  python_on_ascii U ->
  Forall (fun p : node => is_level_tag (fst p)) structure ->
  (forall p, In p structure ->
     exists n, tag_level U (fst p) = Ok n /\ (1 <= n <= 6)%Z)
  /\ (structure <> [] ->
      exists levels m,
        map_result (fun p : node => tag_level U (fst p)) structure = Ok levels
        /\ levels <> [] /\ py_min U levels = Ok m)
  /\ (exists out, build_tree U structure = Ok out /\ runs U structure (Ok out))
  /\ (forall e, ~ runs U structure (Raise e)).
Proof.
  intros HU Hall.
  assert (Hout : exists out, build_tree U structure = Ok out).
  { destruct structure as [|x l]; [now eexists|].
    eexists. apply build_tree_render; [exact HU | discriminate | exact Hall]. }
  split; [|split; [|split]].
  - intros p Hin. rewrite List.Forall_forall in Hall.
    destruct (tag_level_level_tag U _ HU (Hall p Hin)) as [E Hr]. eauto.
  - intros Hne. destruct structure as [|x l]; [congruence|].
    exists (List.map (fun p : node => numeric_level U (fst p)) (x :: l)),
           (min_level_of U (x :: l)).
    split; [now apply map_result_levels|]. split; [discriminate|].
    apply py_min_levels.
  - destruct Hout as [out E]. exists out. split; [exact E|].
    rewrite <- E. apply build_tree_runs.
  - intros e Hr. destruct Hout as [out E].
    pose proof (build_tree_runs U structure) as Hf. rewrite E in Hf.
    pose proof (rtc_step_exit_unique U _ _ _ Hr Hf). discriminate.
Qed.

(** C5. For the empty sequence [build_tree] returns the message
    "No headings found.", which is not the empty string; no run on the
    empty sequence ends otherwise. *)
Theorem build_tree_empty :
  build_tree U [] = Ok (u "No headings found.")
  /\ u "No headings found." <> []
  /\ (forall r, runs U [] r -> r = Ok (u "No headings found.")).
Proof.
  split; [reflexivity|]. split; [discriminate|].
  intros r Hr. apply (rtc_step_exit_unique U (Entry []) r (Ok (u "No headings found."))).
  - exact Hr.
  - apply (build_tree_runs U []).
Qed.

(** C8. [build_tree] is deterministic: two complete runs on the same
    sequence of nodes end with the same outcome, the same string
    character for character, and that outcome is the value of the function;
    every sequence has a complete run. *)
Theorem build_tree_deterministic (structure : list node) (r1 r2 : result str) :
  runs U structure r1 -> runs U structure r2 ->
  r1 = r2 /\ r1 = build_tree U structure /\ runs U structure (build_tree U structure).
Proof.
  intros H1 H2. split; [|split].
  - exact (rtc_step_exit_unique U _ _ _ H1 H2).
  - exact (rtc_step_exit_unique U _ _ _ H1 (build_tree_runs U structure)).
  - apply build_tree_runs.
Qed.

End WithTables.

Lemma level_tags_sample (l : list node) :
  forallb (fun p : node => existsb (fun t => bool_decide (fst p = t)) level_tags) l = true ->
  Forall (fun p : node => is_level_tag (fst p)) l.
Proof.
  intros H. apply List.Forall_forall. intros p Hp.
  rewrite List.forallb_forall in H. specialize (H p Hp).
  apply List.existsb_exists in H as (t & Ht & Heq).
  apply bool_decide_eq_true in Heq. unfold is_level_tag. now rewrite Heq.
Qed.

(** On level-tags the rendering is the same under all tables that follow
    Python on ASCII: what is computed with the sample tables below holds for
    Python's. *)
Lemma numeric_level_any_tables (U : Tables) tag :
  python_on_ascii U -> is_level_tag tag ->
  numeric_level U tag = numeric_level ascii_tables tag.
Proof.
  intros (_ & _ & Hd & _) H.
  unfold is_level_tag, level_tags in H. simpl in H. unfold numeric_level.
  repeat (destruct H as [<-|H];
          [lit; cbn [nth_error]; rewrite Hd by reflexivity; reflexivity|]).
  destruct H.
Qed.

Lemma min_level_of_any_tables (U : Tables) (structure : list node) :
  python_on_ascii U ->
  Forall (fun p : node => is_level_tag (fst p)) structure ->
  min_level_of U structure = min_level_of ascii_tables structure.
Proof.
  intros HU H. destruct H as [|[tag text] rest Hp Hrest]; [reflexivity|].
  unfold min_level_of. simpl in Hp. rewrite (numeric_level_any_tables U tag HU Hp).
  induction Hrest as [|q rest Hq _ IH]; [reflexivity|].
  cbn -[Z.min]. now rewrite IH, (numeric_level_any_tables U _ HU Hq).
Qed.

Lemma build_tree_any_tables (U : Tables) (structure : list node) :
  python_on_ascii U ->
  Forall (fun p : node => is_level_tag (fst p)) structure ->
  build_tree U structure = build_tree ascii_tables structure.
Proof.
  intros HU H. destruct structure as [|x l]; [reflexivity|].
  rewrite (build_tree_render U (x :: l) HU) by (discriminate || exact H).
  rewrite (build_tree_render ascii_tables (x :: l) ascii_tables_python)
    by (discriminate || exact H).
  f_equal. f_equal. apply List.map_ext_in. intros p Hp.
  rewrite List.Forall_forall in H. unfold indent_units.
  rewrite (numeric_level_any_tables U _ HU (H p Hp)).
  rewrite (min_level_of_any_tables U (x :: l) HU) by (now apply List.Forall_forall).
  reflexivity.
Qed.

Lemma build_tree_lines_indent_witness :
  build_tree ascii_tables [(u "H2", u "Intro"); (u "H3", u "Sub"); (u "H1", u "Title")]
  = Ok (u "  - H2: Intro" ++ nl ++ u "    - H3: Sub" ++ nl ++ u "- H1: Title" ++ nl).
Proof.
  destruct (build_tree_lines_indent ascii_tables
              [(u "H2", u "Intro"); (u "H3", u "Sub"); (u "H1", u "Title")]
              ascii_tables_python)
    as [E _].
  - discriminate.
  - apply level_tags_sample. reflexivity.
  - rewrite E. reflexivity.
Defined.

(** C4 as stated fails: the text is written as stored, so a node whose text
    holds a newline takes two lines of the output, and a text with spaces at
    its ends is not trimmed.  Under no tables that follow Python on ASCII do
    the two nodes below give two lines. *)
Lemma build_tree_text_as_stored :
  build_tree ascii_tables [(u "H2", u "a" ++ nl ++ u "b"); (u "H3", u "c")]
  = Ok (u "- H2: a" ++ nl ++ u "b" ++ nl ++ u "  - H3: c" ++ nl)
  /\ split_lines (u "- H2: a" ++ nl ++ u "b" ++ nl ++ u "  - H3: c" ++ nl)
     = [u "- H2: a"; u "b"; u "  - H3: c"; []]
  /\ line_count (u "- H2: a" ++ nl ++ u "b" ++ nl ++ u "  - H3: c" ++ nl)
     <> length [(u "H2", u "a" ++ nl ++ u "b"); (u "H3", u "c")]
  /\ build_tree ascii_tables [(u "H1", u " x ")] = Ok (u "- H1:  x " ++ nl)
  /\ u "- H1:  x " ++ nl
     <> rendered_line 0 (u "H1") (strip ascii_tables (u " x "))
  /\ ~ (exists U out,
          python_on_ascii U
          /\ build_tree U [(u "H2", u "a" ++ nl ++ u "b"); (u "H3", u "c")] = Ok out
          /\ line_count out = length [(u "H2", u "a" ++ nl ++ u "b"); (u "H3", u "c")]).
Proof.
  split; [reflexivity|]. split; [reflexivity|]. split; [vm_compute; discriminate|].
  split; [reflexivity|]. split; [vm_compute; discriminate|].
  intros (U & out & HU & E & Hn).
  rewrite (build_tree_any_tables U _ HU) in E by (apply level_tags_sample; reflexivity).
  vm_compute in E. injection E as <-. vm_compute in Hn. discriminate.
Qed.

Lemma build_tree_newline_terminated_witness :
  exists out,
    build_tree ascii_tables [(u "H2", u "Intro"); (u "H3", u "Sub")] = Ok out
    /\ ends_with_char nl_char out = true
    /\ line_count out = 2 + 0.
Proof.
  destruct (build_tree_newline_terminated ascii_tables
              [(u "H2", u "Intro"); (u "H3", u "Sub")] ascii_tables_python)
    as (out & E & Hend & Hcount & _).
  - discriminate.
  - apply level_tags_sample. reflexivity.
  - exists out. split; [exact E|]. split; [exact Hend | exact Hcount].
Defined.

(** C9 as stated fails: a single node whose text holds a newline is
    rendered as two newline-terminated lines, not one, under any tables that
    follow Python on ASCII. *)
Lemma build_tree_embedded_newline :
  build_tree ascii_tables [(u "H1", u "a" ++ nl ++ u "b")]
  = Ok (u "- H1: a" ++ nl ++ u "b" ++ nl)
  /\ line_count (u "- H1: a" ++ nl ++ u "b" ++ nl) = 2
  /\ split_lines (u "- H1: a" ++ nl ++ u "b" ++ nl) = [u "- H1: a"; u "b"; []]
  /\ line_count (u "- H1: a" ++ nl ++ u "b" ++ nl)
     <> length [(u "H1", u "a" ++ nl ++ u "b")]
  /\ ~ (exists U out,
          python_on_ascii U
          /\ build_tree U [(u "H1", u "a" ++ nl ++ u "b")] = Ok out
          /\ line_count out = length [(u "H1", u "a" ++ nl ++ u "b")]).
Proof.
  split; [reflexivity|]. split; [reflexivity|]. split; [reflexivity|].
  split; [vm_compute; discriminate|].
  intros (U & out & HU & E & Hn).
  rewrite (build_tree_any_tables U _ HU) in E by (apply level_tags_sample; reflexivity).
  vm_compute in E. injection E as <-. vm_compute in Hn. discriminate.
Qed.

Lemma build_tree_total_witness :
  exists out, build_tree ascii_tables [(u "H3", u "x"); (u "H6", u "y")] = Ok out
              /\ runs ascii_tables [(u "H3", u "x"); (u "H6", u "y")] (Ok out).
Proof.
  refine (proj1 (proj2 (proj2 (build_tree_total ascii_tables
                                 [(u "H3", u "x"); (u "H6", u "y")]
                                 ascii_tables_python _)))).
  apply level_tags_sample. reflexivity.
Defined.

Lemma build_tree_deterministic_witness :
  Ok (u "- H1: a" ++ nl) = Ok (u "- H1: a" ++ nl)
  /\ Ok (u "- H1: a" ++ nl) = build_tree ascii_tables [(u "H1", u "a")]
  /\ runs ascii_tables [(u "H1", u "a")] (build_tree ascii_tables [(u "H1", u "a")]).
Proof.
  assert (R : runs ascii_tables [(u "H1", u "a")] (Ok (u "- H1: a" ++ nl))).
  { unfold runs.
    eapply rtc_l.
    { eapply (step_min ascii_tables (u "H1", u "a") [] [1%Z] 1%Z); reflexivity. }
    eapply rtc_l.
    { eapply (step_iter ascii_tables 1%Z (u "H1") (u "a") [] [] 1%Z). reflexivity. }
    eapply rtc_l; [apply step_return|]. apply rtc_refl. }
  exact (build_tree_deterministic ascii_tables [(u "H1", u "a")] _ _ R R).
Defined.

End TreeClaims.

(** ** Keyword patterns *)

Module ReFacts.
Import PyStr Re StrFacts.

Lemma special_is_plain_escape c :
  is_special c = true -> is_alnum c = false /\ (c =? 98)%N = false.
Proof.
  unfold is_special. intros H. apply List.existsb_exists in H as (x & Hx & E).
  apply N.eqb_eq in E. subst x. simpl in Hx.
  repeat (destruct Hx as [<-|Hx]; [split; reflexivity|]). destruct Hx.
Qed.

Lemma unspecial_is_literal c :
  is_special c = false -> (c =? backslash)%N = false /\ is_meta c = false.
Proof.
  intros H. split.
  - destruct (c =? backslash)%N eqn:E; [|reflexivity].
    apply N.eqb_eq in E. subst c. discriminate H.
  - destruct (is_meta c) eqn:E; [|reflexivity].
    unfold is_meta in E. apply List.existsb_exists in E as (x & Hx & E).
    apply N.eqb_eq in E. subst x. simpl in Hx.
    repeat (destruct Hx as [<-|Hx]; [discriminate H|]). destruct Hx.
Qed.

(** An escaped string compiles to its own characters as literals. *)
Lemma compile_escape (s tail : str) :
  compile_from false (escape s ++ tail)
  = (fun atoms => List.map Lit s ++ atoms) <$> compile_from false tail.
Proof.
  induction s as [|c s IH].
  - simpl. now destruct (compile_from false tail).
  - cbn [escape]. destruct (is_special c) eqn:E.
    + apply special_is_plain_escape in E as [Ea Eb].
      cbn [app compile_from].
      change (backslash =? backslash)%N with true. cbn iota.
      rewrite Eb, Ea, IH. now destruct (compile_from false tail).
    + apply unspecial_is_literal in E as [Eb Em].
      cbn [app compile_from]. rewrite Eb, Em, IH.
      now destruct (compile_from false tail).
Qed.

Section WithTables.
Variable U : Tables.

(** The pattern for a keyword is always accepted: a word boundary, the
    lower-cased keyword literally, a word boundary. *)
Lemma compile_pattern_of (keyword : str) :
  compile (Extractor.pattern_of U keyword)
  = Some (WordBoundary :: List.map Lit (lower U keyword) ++ [WordBoundary]).
Proof.
  unfold compile, Extractor.pattern_of.
  change (u "\b" ++ escape (lower U keyword) ++ u "\b")
    with (backslash :: 98%N :: (escape (lower U keyword) ++ [backslash; 98%N])).
  cbn [compile_from].
  change (backslash =? backslash)%N with true.
  change (98 =? 98)%N with true. cbn iota.
  rewrite compile_escape. reflexivity.
Qed.

Lemma count_keyword_ok (text_content keyword : str) :
  Extractor.count_keyword U text_content keyword
  = Ok (scan U (WordBoundary :: List.map Lit (lower U keyword) ++ [WordBoundary])
             None text_content 0).
Proof.
  unfold Extractor.count_keyword, findall_count.
  now rewrite compile_pattern_of.
Qed.

End WithTables.

End ReFacts.

(** ** Extractor *)

Module ExtractorFacts.
Import PyStr Extractor StrFacts ReFacts.

Lemma sum_values_empty : sum_values ∅ = 0.
Proof. unfold sum_values. apply map_fold_empty. Qed.

Lemma sum_values_insert_fresh (m : gmap str nat) k v :
  m !! k = None -> sum_values (<[k := v]> m) = v + sum_values m.
Proof.
  intros H. unfold sum_values.
  rewrite map_fold_insert_L; [reflexivity | intros; lia | exact H].
Qed.

(** [counts[tag] += 1] adds one to the sum of the values. *)
Lemma sum_values_increment (m : gmap str nat) k v :
  m !! k = Some v -> sum_values (<[k := v + 1]> m) = sum_values m + 1.
Proof.
  intros H.
  rewrite <- (insert_delete_eq m k (v + 1)).
  rewrite sum_values_insert_fresh by apply lookup_delete_eq.
  rewrite <- (insert_id m k v H) at 2.
  rewrite <- (insert_delete_eq m k v).
  rewrite sum_values_insert_fresh by apply lookup_delete_eq.
  lia.
Qed.

Lemma sum_values_initial : sum_values initial_counts = 0.
Proof.
  unfold initial_counts.
  repeat (rewrite sum_values_insert_fresh by reflexivity).
  now rewrite sum_values_empty.
Qed.

Lemma filter_all_true {A} (f : A -> bool) (l : list A) :
  Forall (fun x => f x = true) l -> List.filter f l = l.
Proof.
  induction 1 as [|x l Hx _ IH]; simpl; [reflexivity|]. now rewrite Hx, IH.
Qed.

Lemma truthy_true (s : str) : s <> [] -> truthy s = true.
Proof. destruct s; [congruence | reflexivity]. Qed.

Section WithTables.
Variable U : Tables.

(** The loop over the headings keeps [total] equal to the sum of the
    counters. *)
Lemma count_headings_sum (headings : list Element) (counts : gmap str nat)
    (total : nat) (structure : list (str * str)) :
  sum_values counts = total ->
  let '(counts', total', _) := count_headings U headings counts total structure in
  sum_values counts' = total'.
Proof.
  revert counts total structure.
  induction headings as [|h rest IH]; intros counts total structure Hinv; simpl.
  - exact Hinv.
  - destruct (counts !! upper U (name h)) as [v|] eqn:E.
    + apply IH. rewrite (sum_values_increment _ _ _ E). lia.
    + now apply IH.
Qed.

(** The keyword loop returns, and its keys are the old keys plus the
    keywords that are not blank. *)
Lemma count_keywords_dom (text_content : str) (keywords : list str)
    (acc : gmap str nat) :
  exists m,
    count_keywords U text_content keywords acc = Ok m
    /\ dom m = dom acc ∪ list_to_set
                 (List.filter (fun k => truthy (strip U k)) keywords).
Proof.
  revert acc. induction keywords as [|k rest IH]; intros acc; simpl.
  - exists acc. split; [reflexivity|].
    change (dom acc = dom acc ∪ ∅). now rewrite (right_id_L ∅ (∪)).
  - destruct (truthy (strip U k)) eqn:E.
    + rewrite count_keyword_ok. simpl.
      destruct (IH (<[k := Re.scan U
          (Re.WordBoundary :: List.map Re.Lit (lower U k) ++ [Re.WordBoundary])
          None text_content 0]> acc)) as (m & Hm & Hd).
      exists m. split; [exact Hm|].
      rewrite Hd, dom_insert_L, ?list_to_set_cons.
      rewrite (comm_L (∪) {[k]} (dom acc)), (assoc_L (∪)). reflexivity.
    + destruct (IH acc) as (m & Hm & Hd). exists m. split; [exact Hm | exact Hd].
Qed.

Variable W : Web.

(** What a normal return of the [try] body tells. *)
Lemma get_headings_try_ok earlier url keywords h :
  get_headings_try U W earlier url keywords = Ok h ->
  exists response soup,
    requests_get W earlier url = Ok response
    /\ raise_for_status U response = Ok tt
    /\ BeautifulSoup W (text response) = Parsed soup
    /\ http_status h = status_code response
    /\ (counts h, total h, structure h)
       = count_headings U (find_all heading_names soup) initial_counts 0 []
    /\ match keywords_given keywords with
       | [] => keyword_counts h = ∅
       | kws => count_keywords U (lower U (get_text soup)) kws ∅
                = Ok (keyword_counts h)
       end
    /\ page_title h = match find (u "title") soup with
                      | Some t => strip U (elem_text t)
                      | None => u "No Title"
                      end
    /\ meta_desc h = match find_attr (u "meta") (u "name") (u "description") soup with
                     | Some m =>
                         match attrs m !! u "content" with
                         | Some c => strip U c
                         | None => u "No Meta Description"
                         end
                     | None => u "No Meta Description"
                     end.
Proof.
  unfold get_headings_try.
  destruct (requests_get W earlier url) as [response|e]; [|discriminate].
  cbn [mbind result_bind].
  destruct (raise_for_status U response) as [[]|e] eqn:Er; [|discriminate].
  cbn [mbind result_bind].
  unfold parse.
  destruct (BeautifulSoup W (text response)) as [soup|e] eqn:Es; [|discriminate].
  cbn [mbind result_bind].
  destruct (count_headings U _ initial_counts 0 []) as [[c t] st] eqn:Ec.
  intros H. exists response, soup.
  destruct (keywords_given keywords) as [|k kws] eqn:Ek.
  - cbn in H. simplify_eq. cbn. auto 10.
  - destruct (count_keywords U _ (k :: kws) ∅) as [m|e] eqn:Em; [|discriminate].
    cbn in H. simplify_eq. cbn. auto 10.
Qed.

(** A successful fetch of a page the parser accepts makes the [try] body
    return. *)
Lemma get_headings_try_returns earlier url keywords response soup :
  requests_get W earlier url = Ok response ->
  raise_for_status U response = Ok tt ->
  BeautifulSoup W (text response) = Parsed soup ->
  exists h, get_headings_try U W earlier url keywords = Ok h.
Proof.
  intros Hg Hr Hs. unfold get_headings_try. rewrite Hg.
  cbn [mbind result_bind]. rewrite Hr. cbn [mbind result_bind].
  unfold parse. rewrite Hs. cbn [mbind result_bind].
  destruct (count_headings U _ initial_counts 0 []) as [[c t] st].
  destruct (keywords_given keywords) as [|k kws].
  - eexists. reflexivity.
  - destruct (count_keywords_dom (lower U (get_text soup)) (k :: kws) ∅)
      as (m & -> & _).
    eexists. reflexivity.
Qed.

Lemma fetch_fails_try earlier url keywords msg response :
  fetch_fails U W earlier url msg response ->
  get_headings_try U W earlier url keywords = Raise (RequestException msg response).
Proof.
  unfold get_headings_try. intros [H|(r & Hg & Hr)].
  - now rewrite H.
  - rewrite Hg. cbn [mbind result_bind]. now rewrite Hr.
Qed.

(** The three places where the [try] body can raise: the fetch, the status
    check and the parser. *)
Lemma get_headings_try_raises earlier url keywords e :
  get_headings_try U W earlier url keywords = Raise e ->
  requests_get W earlier url = Raise e
  \/ (exists r, requests_get W earlier url = Ok r
                 /\ raise_for_status U r = Raise e
                 /\ e = RequestException (http_error_text U r) (Some r))
  \/ (exists r msg, requests_get W earlier url = Ok r
                     /\ raise_for_status U r = Ok tt
                     /\ BeautifulSoup W (text r) = Rejected msg
                     /\ e = OtherException msg).
Proof.
  unfold get_headings_try.
  destruct (requests_get W earlier url) as [response|e0]; [|intros [= ->]; now left].
  cbn [mbind result_bind].
  destruct (raise_for_status U response) as [[]|e0] eqn:Er.
  - cbn [mbind result_bind]. unfold parse.
    destruct (BeautifulSoup W (text response)) as [soup|msg] eqn:Es.
    + cbn [mbind result_bind].
      destruct (count_headings U _ initial_counts 0 []) as [[c t] st].
      destruct (keywords_given keywords) as [|k kws]; [discriminate|].
      destruct (count_keywords_dom (lower U (get_text soup)) (k :: kws) ∅)
        as (m & -> & _).
      discriminate.
    + cbn [mbind result_bind]. intros [= <-]. right. right.
      exists response, msg. auto.
  - cbn [mbind result_bind]. intros [= ->]. right. left. exists response.
    split; [reflexivity|]. split; [exact Er|].
    unfold raise_for_status in Er.
    destruct ((400 <=? status_code response)%Z && (status_code response <? 600)%Z);
      [now injection Er as <- | discriminate].
Qed.

End WithTables.

End ExtractorFacts.

(** ** Summary rows and the URL list *)

Module DriverFacts.
Import PyStr Extractor Driver Notions.

(** Writing zeros into a row leaves a zero cell zero. *)
Lemma fold_insert_zero (f : str -> Z) (kws : list str)
    (row : gmap str cell) (tag : str) :
  (forall k, f k = 0%Z) ->
  row !! tag = Some (CInt 0) ->
  fold_left (fun row keyword => <[keyword := CInt (f keyword)]> row) kws row !! tag
  = Some (CInt 0).
Proof.
  intros Hf. revert row. induction kws as [|k kws IH]; intros row Hrow; [exact Hrow|].
  simpl. apply IH.
  destruct (decide (k = tag)) as [->|Hne].
  - rewrite lookup_insert_eq, Hf. reflexivity.
  - rewrite lookup_insert_ne by exact Hne. exact Hrow.
Qed.

(** The row of a degraded result has 0 as total and in each level column,
    whatever the keyword columns are. *)
Lemma make_row_degraded url response enable kws tag :
  In tag (u "Total Headings" :: Tree.level_tags) ->
  make_row url (degraded response) enable kws !! tag = Some (CInt 0).
Proof.
  intros Hin. unfold make_row. destruct enable.
  - apply (fold_insert_zero (get0 (keyword_counts (degraded response)))).
    + intros k. unfold get0. simpl. now rewrite lookup_empty.
    + simpl in Hin.
      repeat (destruct Hin as [<-|Hin]; [vm_compute; reflexivity|]). destruct Hin.
  - simpl in Hin.
    repeat (destruct Hin as [<-|Hin]; [vm_compute; reflexivity|]). destruct Hin.
Qed.

(** [list(set(urls))] has the elements of [urls], each once. *)
Lemma list_set_NoDup (urls : list str) : List.NoDup (list_set urls).
Proof. unfold list_set. apply NoDup_ListNoDup, NoDup_elements. Qed.

Lemma list_set_In (urls : list str) (x : str) : In x (list_set urls) <-> In x urls.
Proof.
  unfold list_set.
  rewrite <- !list_elem_of_In, elem_of_elements, elem_of_list_to_set. reflexivity.
Qed.

Section WithTables.
Variable U : Tables.

Lemma keywords_of_fetched inp w : fetched (snd (keywords_of U inp w)) = fetched w.
Proof.
  unfold keywords_of. destruct (enable_keyword_search inp); [|reflexivity].
  destruct (truthy (keyword_input inp)); reflexivity.
Qed.

(** The column read does not depend on the messages shown so far, and
    reading it fetches nothing. *)
Lemma sheet_urls_world df w :
  fst (sheet_urls U df w) = sheet_column U df
  /\ fetched (snd (sheet_urls U df w)) = fetched w.
Proof.
  unfold sheet_urls, sheet_column. destruct (column (u "A") df); [split; reflexivity|].
  destruct (columns df); split; reflexivity.
Qed.

Lemma collect_urls_merged inp df extra w :
  uploaded_file inp = Some (Ok df) ->
  sheet_column U df = Ok extra ->
  fst (collect_urls U inp w) = list_set (text_urls U inp ++ extra)
  /\ fetched (snd (collect_urls U inp w)) = fetched w.
Proof.
  intros Hu Hs. unfold collect_urls. rewrite Hu.
  pose proof (sheet_urls_world df w) as [Hc Hw]. rewrite Hs in Hc.
  destruct (sheet_urls U df w) as [[l|e] w1]; simpl in *; [|discriminate].
  injection Hc as ->. split; [reflexivity | exact Hw].
Qed.

Variable W : Web.

(** Each call of [get_headings] is one fetch, of its own URL. *)
Lemma get_headings_fetched url keywords w :
  fetched (snd (get_headings U W url keywords w)) = fetched w ++ [url].
Proof.
  unfold get_headings.
  destruct (get_headings_try U W (fetched w) url keywords) as [h|[]];
    reflexivity.
Qed.

(** The loop fetches the URLs of its list in order, all of them unless an
    exception ends it. *)
Lemma analyze_loop_fetched urls enable keywords acc w out w' :
  analyze_loop U W urls enable keywords acc w = (out, w') ->
  exists visited rest,
    urls = visited ++ rest
    /\ fetched w' = fetched w ++ visited
    /\ (forall r, out = Ok r -> rest = []).
Proof.
  revert acc w. induction urls as [|url urls IH]; intros acc w H; simpl in H.
  - injection H as <- <-. exists [], []. repeat split. now rewrite List.app_nil_r.
  - pose proof (get_headings_fetched url (if enable then Some keywords else None) w) as Hf.
    destruct (get_headings U W url (if enable then Some keywords else None) w)
      as [[h|e] w1].
    + apply IH in H as (visited & rest & -> & Hw & Hr).
      exists (url :: visited), rest. simpl in Hf.
      split; [reflexivity|]. split; [|exact Hr].
      rewrite Hw, Hf, <- List.app_assoc. reflexivity.
    + injection H as <- <-. exists [url], urls.
      split; [reflexivity|]. split; [exact Hf | discriminate].
Qed.

(** The fetches of one press of the button, when a spreadsheet was read:
    no URL twice, only URLs of the two sources, and all of them when the run
    ends normally. *)
Lemma analyze_fetch_log inp df extra w out w' :
  uploaded_file inp = Some (Ok df) ->
  sheet_column U df = Ok extra ->
  analyze U W inp w = (out, w') ->
  exists new,
    fetched w' = fetched w ++ new
    /\ List.NoDup new
    /\ (forall x, In x new -> In x (text_urls U inp) \/ In x extra)
    /\ (forall r, out = Ok r ->
          forall x, In x (text_urls U inp) \/ In x extra -> In x new).
Proof.
  intros Hu Hs. unfold analyze.
  pose proof (keywords_of_fetched inp w) as Hk.
  destruct (keywords_of U inp w) as [keywords w1]. simpl in Hk.
  pose proof (collect_urls_merged inp df extra w1 Hu Hs) as [Hc Hw2].
  destruct (collect_urls U inp w1) as [urls w2]. simpl in Hc, Hw2. subst urls.
  pose proof (list_set_NoDup (text_urls U inp ++ extra)) as Hnd.
  pose proof (list_set_In (text_urls U inp ++ extra)) as Hin.
  destruct (list_set (text_urls U inp ++ extra)) as [|u0 urls] eqn:El.
  - intros [= <- <-]. exists []. simpl. rewrite List.app_nil_r.
    split; [congruence|]. split; [constructor|]. split; [intros x []|].
    intros _ _ x Hx. apply (Hin x), List.in_or_app. exact Hx.
  - destruct (analyze_loop U W (u0 :: urls)
                (enable_keyword_search inp) keywords
                {| data := []; structures := ∅ |} w2) as [r w3] eqn:Ea.
    intros [= <- <-].
    apply analyze_loop_fetched in Ea as (visited & rest & Ev & Hw3 & Hr).
    exists visited. split; [congruence|].
    rewrite Ev in Hnd. split; [exact (List.NoDup_app_remove_r _ _ Hnd)|].
    split.
    + intros x Hv. apply List.in_app_or, (Hin x). rewrite Ev.
      apply List.in_or_app. now left.
    + intros r0 Hr0 x Hx.
      destruct r as [r|e]; [|discriminate].
      rewrite (Hr r eq_refl), List.app_nil_r in Ev. rewrite <- Ev.
      apply (Hin x), List.in_or_app. exact Hx.
Qed.

End WithTables.

End DriverFacts.

(** ** Claims about the extractor *)

Module ExtractorClaims.
Import PyStr Extractor StrFacts TableFacts AsciiFacts ReFacts ExtractorFacts Samples.

Section WithTables.
Variable U : Tables.
Variable W : Web.

(** C1. Whatever [get_headings] returns, on the success path and on the
    path of a failed fetch, the values of the per-level counts add up to the
    returned total. *)
Theorem counts_sum_is_total url keywords w h w' :
  get_headings U W url keywords w = (Ok h, w') ->
  sum_values (counts h) = total h.
Proof.
  unfold get_headings.
  destruct (get_headings_try U W (fetched w) url keywords) as [h0|e] eqn:E.
  - intros [= -> _].
    apply get_headings_try_ok in E as (response & soup & _ & _ & _ & _ & Hc & _).
    pose proof (count_headings_sum U (find_all heading_names soup)
                  initial_counts 0 [] sum_values_initial) as Hs.
    rewrite <- Hc in Hs. exact Hs.
  - destruct e; intros [= <- _]. simpl. apply sum_values_empty.
Qed.

(** C2. When the fetch fails with a request exception (raised by
    [requests.get], as for a timeout, a DNS or a connection failure, or by
    [raise_for_status] for an error status), [get_headings] returns normally:
    title and meta description "Error", total 0, no per-level count other
    than zero, no headings, no keyword counts, and as status the status code
    of the response attached to the exception, or 0 without one.  The error
    is shown to the user with the text of the exception, and the summary row
    has 0 in the total and in each of the columns H1..H6. *)
Theorem fetch_failure_degraded url keywords w msg response :
  fetch_fails U W (fetched w) url msg response ->
  exists h w',
    get_headings U W url keywords w = (Ok h, w')
    /\ page_title h = u "Error"
    /\ meta_desc h = u "Error"
    /\ total h = 0
    /\ (forall tag, default 0 (counts h !! tag) = 0)
    /\ structure h = []
    /\ keyword_counts h = ∅
    /\ http_status h = match response with
                       | Some r => status_code r
                       | None => 0%Z
                       end
    /\ shown w' = shown w ++ [st_error (u "Error fetching " ++ url ++ u ": " ++ msg)]
    /\ (forall enable kws tag,
          In tag (u "Total Headings" :: Tree.level_tags) ->
          Driver.make_row url h enable kws !! tag = Some (Driver.CInt 0)).
Proof.
  intros Hf. unfold get_headings.
  rewrite (fetch_fails_try U W _ _ keywords _ _ Hf).
  eexists _, _. split; [reflexivity|].
  split; [reflexivity|]. split; [reflexivity|]. split; [reflexivity|].
  split; [intros tag; simpl; now rewrite lookup_empty|].
  split; [reflexivity|]. split; [reflexivity|]. split; [reflexivity|].
  split; [reflexivity|].
  intros enable kws tag Hin. now apply DriverFacts.make_row_degraded.
Qed.

(** C6. On a successful extraction (the page is fetched with a good status
    and the parser accepts it) with a list of keywords that are each
    non-empty after trimming, the keys of the returned keyword counts are
    exactly the given keyword strings, as given (not lower-cased); without a
    keyword list (search disabled) or with an empty one the keyword counts
    are empty.  Trimming is Python's: the statement holds for every table of
    whitespace characters. *)
Theorem keyword_counts_keys url keywords w response soup :
  requests_get W (fetched w) url = Ok response ->
  raise_for_status U response = Ok tt ->
  BeautifulSoup W (text response) = Parsed soup ->
  exists h,
    get_headings U W url keywords w = (Ok h, record_fetch url w)
    /\ (forall kws, keywords = Some kws ->
          Forall (fun k => strip U k <> []) kws ->
          dom (keyword_counts h) = list_to_set kws
          /\ (forall k, k ∈ dom (keyword_counts h) <-> In k kws))
    /\ (keywords = None \/ keywords = Some [] -> keyword_counts h = ∅).
Proof.
  intros Hg Hr Hp.
  destruct (get_headings_try_returns U W (fetched w) url keywords response soup Hg Hr Hp)
    as [h E].
  exists h. unfold get_headings. rewrite E. split; [reflexivity|].
  apply get_headings_try_ok in E as (response' & soup' & Hg' & _ & Hp' & _ & _ & Hk & _).
  rewrite Hg in Hg'. injection Hg' as <-.
  rewrite Hp in Hp'. injection Hp' as <-.
  split.
  - intros kws -> Hall. cbn [keywords_given] in Hk.
    assert (Hd : dom (keyword_counts h) = list_to_set kws).
    { destruct kws as [|k kws]; [rewrite Hk; apply dom_empty_L|].
      destruct (count_keywords_dom U (lower U (get_text soup)) (k :: kws) ∅)
        as (m & Hm & Hd).
      rewrite Hk in Hm. injection Hm as <-.
      rewrite Hd, filter_all_true.
      - now rewrite dom_empty_L, (left_id_L ∅ (∪)).
      - eapply List.Forall_impl; [|exact Hall].
        intros a Ha. now apply truthy_true. }
    split; [exact Hd|].
    intros k. rewrite Hd, elem_of_list_to_set. apply list_elem_of_In.
  - intros [->| ->]; exact Hk.
Qed.

(** C3 (as amended). For a page whose visible text is "SEO seo-tools seo."
    and the keyword "seo", the extractor counts 3 whole-word matches: the
    text is lower-cased, the keyword lower-cased and escaped, and a word
    boundary holds on both sides of each of the three occurrences, the one
    before the hyphen included. *)
Theorem keyword_count_seo url w response soup :
  python_on_ascii U ->
  requests_get W (fetched w) url = Ok response ->
  raise_for_status U response = Ok tt ->
  BeautifulSoup W (text response) = Parsed soup ->
  get_text soup = u "SEO seo-tools seo." ->
  count_keyword U (lower U (u "SEO seo-tools seo.")) (u "seo") = Ok 3
  /\ exists h,
       get_headings U W url (Some [u "seo"]) w = (Ok h, record_fetch url w)
       /\ keyword_counts h !! u "seo" = Some 3.
Proof.
  intros HU Hg Hr Hp Ht.
  assert (Hc : count_keyword U (lower U (u "SEO seo-tools seo.")) (u "seo") = Ok 3).
  { rewrite (lower_ascii U HU) by (apply ascii_str_check; reflexivity).
    rewrite (count_keyword_ascii U HU) by (apply ascii_str_check; reflexivity).
    reflexivity. }
  split; [exact Hc|].
  destruct (get_headings_try_returns U W (fetched w) url (Some [u "seo"])
              response soup Hg Hr Hp) as [h E].
  exists h. unfold get_headings. rewrite E. split; [reflexivity|].
  apply get_headings_try_ok in E as (response' & soup' & Hg' & _ & Hp' & _ & _ & Hk & _).
  rewrite Hg in Hg'. injection Hg' as <-.
  rewrite Hp in Hp'. injection Hp' as <-.
  cbn [keywords_given] in Hk. rewrite Ht in Hk.
  cbn [count_keywords] in Hk.
  rewrite (strip_ascii U HU) in Hk by (apply ascii_str_check; reflexivity).
  change (truthy (strip ascii_tables (u "seo"))) with true in Hk. cbn iota in Hk.
  rewrite Hc in Hk. cbn [mbind result_bind] in Hk.
  injection Hk as <-. apply lookup_insert_eq.
Qed.

End WithTables.

Lemma counts_sum_is_total_witness :
  exists h w',
    get_headings ascii_tables sample_web (u "http://ok") None empty_world = (Ok h, w')
    /\ total h = 4
    /\ sum_values (counts h) = total h.
Proof.
  destruct (get_headings ascii_tables sample_web (u "http://ok") None empty_world)
    as [[h|e] w'] eqn:E.
  - exists h, w'. split; [reflexivity|]. split.
    + vm_compute in E. injection E as <- _. reflexivity.
    + exact (counts_sum_is_total ascii_tables sample_web _ _ _ _ _ E).
  - vm_compute in E. discriminate.
Defined.

(** The same sum on the path of a failed fetch. *)
Example counts_sum_failed_fetch :
  get_headings ascii_tables sample_web (u "http://down") None empty_world
  = (Ok (degraded None),
     {| fetched := [u "http://down"];
        shown := [st_error (u "Error fetching http://down: timed out")] |})
  /\ sum_values (counts (degraded None)) = total (degraded None).
Proof. split; [reflexivity | apply sum_values_empty]. Qed.

Lemma fetch_failure_degraded_witness :
  exists h w',
    get_headings ascii_tables sample_web (u "http://gone") (Some [u "seo"]) empty_world
    = (Ok h, w')
    /\ page_title h = u "Error" /\ meta_desc h = u "Error" /\ total h = 0
    /\ http_status h = 404%Z.
Proof.
  destruct (fetch_failure_degraded ascii_tables sample_web (u "http://gone")
              (Some [u "seo"]) empty_world
              (http_error_text ascii_tables gone_response)
              (Some gone_response))
    as (h & w' & E & Ht & Hm & Hn & _ & _ & _ & Hs & _).
  - right. exists gone_response. split; reflexivity.
  - exists h, w'. repeat split; assumption.
Defined.

(** A failure without a response (a timeout) gives status 0. *)
Example fetch_failure_timeout :
  exists h w',
    get_headings ascii_tables sample_web (u "http://down") None empty_world = (Ok h, w')
    /\ http_status h = 0%Z /\ page_title h = u "Error".
Proof. eexists _, _. repeat split. Qed.

Lemma keyword_counts_keys_witness :
  exists h,
    get_headings ascii_tables sample_web (u "http://ok") (Some [u "SEO"; u "Tools"])
      empty_world
    = (Ok h, record_fetch (u "http://ok") empty_world)
    /\ dom (keyword_counts h) = list_to_set [u "SEO"; u "Tools"].
Proof.
  destruct (keyword_counts_keys ascii_tables sample_web (u "http://ok")
              (Some [u "SEO"; u "Tools"]) empty_world
              page_response sample_soup)
    as (h & E & Hk & _); [reflexivity | reflexivity | reflexivity |].
  exists h. split; [exact E|].
  apply (Hk [u "SEO"; u "Tools"] eq_refl).
  repeat constructor; discriminate.
Defined.

(** The counts are stored under the keyword as typed, found in lower case. *)
Example keyword_counts_original_key :
  exists h w',
    get_headings ascii_tables sample_web (u "http://ok")
      (Some [u "SEO"; u " "; u "tools"]) empty_world
    = (Ok h, w')
    /\ keyword_counts h !! u "SEO" = Some 3
    /\ keyword_counts h !! u "seo" = None
    /\ keyword_counts h !! u " " = None
    /\ keyword_counts h !! u "tools" = Some 1.
Proof. eexists _, _. repeat split. Qed.

Lemma keyword_count_seo_witness :
  count_keyword ascii_tables (lower ascii_tables (u "SEO seo-tools seo.")) (u "seo") = Ok 3
  /\ exists h,
       get_headings ascii_tables sample_web (u "http://ok") (Some [u "seo"]) empty_world
       = (Ok h, record_fetch (u "http://ok") empty_world)
       /\ keyword_counts h !! u "seo" = Some 3.
Proof.
  apply (keyword_count_seo ascii_tables sample_web (u "http://ok") empty_world
           page_response sample_soup
           ascii_tables_python); reflexivity.
Defined.

(** C3 as stated fails: the count is not 2, under any tables that follow
    Python on ASCII. *)
Lemma keyword_count_seo_not_two :
  count_keyword ascii_tables (lower ascii_tables (u "SEO seo-tools seo.")) (u "seo")
  <> Ok 2
  /\ ~ (exists U,
          python_on_ascii U
          /\ count_keyword U (lower U (u "SEO seo-tools seo.")) (u "seo") = Ok 2).
Proof.
  split; [vm_compute; discriminate|].
  intros (U & HU & H).
  rewrite (lower_ascii U HU) in H by (apply ascii_str_check; reflexivity).
  rewrite (count_keyword_ascii U HU) in H by (apply ascii_str_check; reflexivity).
  vm_compute in H. discriminate.
Qed.

End ExtractorClaims.

(** ** Claims about the driver *)

Module DriverClaims.
Import PyStr Extractor Driver Notions DriverFacts Samples.

(** C7. When a spreadsheet has been uploaded and its column read, the URLs
    of the text area and of the column are merged and deduplicated before
    the loop: within one press of the button no URL is fetched twice, only
    URLs of the two sources are fetched, and when the run ends normally each
    URL present in either source, however often and in whichever source, is
    fetched exactly once. *)
Theorem analyze_single_fetch_per_url (U : Tables) (W : Web) inp df extra w out w' :
  uploaded_file inp = Some (Ok df) ->
  sheet_column U df = Ok extra ->
  analyze U W inp w = (out, w') ->
  exists new,
    fetched w' = fetched w ++ new
    /\ (forall x, count_occ str_eq_dec new x <= 1)
    /\ (forall x, In x new -> In x (text_urls U inp) \/ In x extra)
    /\ (forall r, out = Ok r ->
          forall x, In x (text_urls U inp) \/ In x extra ->
                    count_occ str_eq_dec new x = 1).
Proof.
  intros Hu Hs Ha.
  destruct (analyze_fetch_log U W inp df extra w out w' Hu Hs Ha)
    as (new & Hw & Hnd & Hsub & Hall).
  exists new. split; [exact Hw|].
  split; [now apply (List.NoDup_count_occ str_eq_dec)|].
  split; [exact Hsub|].
  intros r Hr x Hin.
  apply (proj1 (List.NoDup_count_occ' str_eq_dec new) Hnd). exact (Hall r Hr x Hin).
Qed.

Lemma analyze_single_fetch_per_url_witness :
  text_urls ascii_tables sample_inputs = [u "http://ok"; u "http://gone"; u "http://ok"]
  /\ exists new,
       fetched (snd (analyze ascii_tables sample_web sample_inputs empty_world))
       = [] ++ new
       /\ count_occ str_eq_dec new (u "http://ok") = 1
       /\ count_occ str_eq_dec new (u "http://gone") = 1
       /\ count_occ str_eq_dec new (u "http://down") = 1
       /\ length new = 3.
Proof.
  split; [reflexivity|].
  destruct (analyze ascii_tables sample_web sample_inputs empty_world) as [out w'] eqn:E.
  destruct (analyze_single_fetch_per_url ascii_tables sample_web sample_inputs
              sample_frame [u "http://gone"; u "http://ok"; u "http://down"]
              empty_world out w' eq_refl eq_refl E)
    as (new & Hw & _ & _ & Hall).
  exists new. split; [exact Hw|].
  assert (Hout : exists r, out = Ok r).
  { vm_compute in E. injection E as <- _. eexists. reflexivity. }
  destruct Hout as [r Hr].
  split; [apply (Hall r Hr); vm_compute; tauto|].
  split; [apply (Hall r Hr); vm_compute; tauto|].
  split; [apply (Hall r Hr); vm_compute; tauto|].
  simpl in Hw. vm_compute in E. injection E as _ <-. simpl in Hw. subst new. reflexivity.
Defined.

(** Without an upload the list of the text area is used as typed: a URL
    typed twice is fetched twice. *)
Example analyze_text_only_keeps_duplicates :
  fetched (snd (analyze ascii_tables sample_web sample_inputs_text_only empty_world))
  = [u "http://ok"; u "http://ok"].
Proof. vm_compute. reflexivity. Qed.

End DriverClaims.

(** ** Extractor and renderer together *)

Module Pipeline.
Import PyStr Extractor ExtractorFacts.

Lemma initial_counts_keys tag v :
  initial_counts !! tag = Some v -> Tree.is_level_tag tag.
Proof.
  unfold initial_counts. intros H.
  repeat (rewrite lookup_insert in H; case_decide;
          [subst tag; unfold Tree.is_level_tag, Tree.level_tags; simpl; tauto|]).
  rewrite lookup_empty in H. discriminate.
Qed.

Section WithTables.
Variable U : Tables.

Lemma count_headings_structure (headings : list Element) (counts : gmap str nat)
    (total : nat) (structure : list (str * str)) :
  (forall tag v, counts !! tag = Some v -> Tree.is_level_tag tag) ->
  Forall (extracted_node U) structure ->
  Forall (extracted_node U) (snd (count_headings U headings counts total structure)).
Proof.
  revert counts total structure.
  induction headings as [|h rest IH]; intros counts total structure Hk Hs; simpl.
  - exact Hs.
  - destruct (counts !! upper U (name h)) as [v|] eqn:E.
    + apply IH.
      * intros tag v'. rewrite lookup_insert. case_decide as Hd.
        -- intros _. subst tag. exact (Hk _ _ E).
        -- apply Hk.
      * apply List.Forall_app. split; [exact Hs|].
        constructor; [|constructor]. split; [exact (Hk _ _ E)|].
        exists (elem_text h). reflexivity.
    + now apply IH.
Qed.

(** Every sequence of nodes [get_headings] returns is rendered by
    [build_tree] without an exception. *)
Lemma extracted_structure_renders (W : Web) url keywords w h w' :
  python_on_ascii U ->
  get_headings U W url keywords w = (Ok h, w') ->
  Forall (extracted_node U) (structure h)
  /\ exists out, Tree.build_tree U (structure h) = Ok out.
Proof.
  intros HU H.
  assert (Hs : Forall (extracted_node U) (structure h)).
  { unfold get_headings in H.
    destruct (get_headings_try U W (fetched w) url keywords) as [h0|e] eqn:E.
    - assert (h0 = h) as -> by congruence.
      apply get_headings_try_ok in E as (response & soup & _ & _ & _ & _ & Hc & _).
      pose proof (count_headings_structure (find_all heading_names soup)
                    initial_counts 0 [] initial_counts_keys (List.Forall_nil _)) as Hf.
      rewrite <- Hc in Hf. exact Hf.
    - destruct e; try discriminate.
      assert (degraded response = h) as <- by congruence. constructor. }
  split; [exact Hs|].
  destruct (structure h) as [|p l] eqn:El; [now eexists|].
  eexists. apply TreeClaims.build_tree_render; [exact HU | discriminate|].
  eapply List.Forall_impl; [|exact Hs]. now intros a [Ha _].
Qed.

End WithTables.

End Pipeline.

(** ** Further properties of the extractor *)

Module ExtractorExtras.
Import PyStr Extractor StrFacts TableFacts AsciiFacts ReFacts ExtractorFacts Notions Samples.

Lemma count_tag_cons tag (p : str * str) l :
  count_tag tag (p :: l)
  = (if bool_decide (fst p = tag) then 1 else 0) + count_tag tag l.
Proof. unfold count_tag. simpl. now destruct (bool_decide (fst p = tag)). Qed.

Lemma count_tag_app tag l1 l2 :
  count_tag tag (l1 ++ l2) = count_tag tag l1 + count_tag tag l2.
Proof.
  unfold count_tag. rewrite List.filter_app, List.length_app. reflexivity.
Qed.

(** The names [find_all] selects are the names asked for. *)
Lemma find_all_names tags soup e :
  In e (find_all tags soup) -> In (name e) tags /\ In e (descendants soup).
Proof.
  unfold find_all. rewrite List.filter_In. intros [Hin Hex]. split; [|exact Hin].
  apply List.existsb_exists in Hex as (t & Ht & Heq).
  apply bool_decide_eq_true in Heq. now subst.
Qed.

Lemma dom_initial_counts :
  dom initial_counts = list_to_set Tree.level_tags.
Proof.
  unfold initial_counts. rewrite !dom_insert_L, dom_empty_L.
  unfold Tree.level_tags. rewrite !list_to_set_cons, list_to_set_nil. reflexivity.
Qed.

Lemma initial_counts_zero tag : default 0 (initial_counts !! tag) = 0.
Proof.
  unfold initial_counts.
  repeat (rewrite lookup_insert; case_decide; [reflexivity|]).
  now rewrite lookup_empty.
Qed.

(** [List.find] returns the first element that passes the test. *)
Lemma find_first {A} (f : A -> bool) (pre : list A) (x : A) (post : list A) :
  Forall (fun y => f y = false) pre -> f x = true ->
  List.find f (pre ++ x :: post) = Some x.
Proof.
  induction 1 as [|y pre Hy _ IH]; intros Hx; simpl.
  - now rewrite Hx.
  - rewrite Hy. now apply IH.
Qed.

Lemma find_nothing {A} (f : A -> bool) (l : list A) :
  Forall (fun y => f y = false) l -> List.find f l = None.
Proof. induction 1 as [|y l Hy _ IH]; simpl; [reflexivity | now rewrite Hy]. Qed.

Lemma raise_for_status_error (U : Tables) (response : Response) :
  (400 <= status_code response < 600)%Z ->
  raise_for_status U response
  = Raise (RequestException (http_error_text U response) (Some response)).
Proof.
  intros H. unfold raise_for_status.
  destruct (Z.leb_spec 400 (status_code response)); [|lia].
  destruct (Z.ltb_spec (status_code response) 600); [reflexivity | lia].
Qed.

Lemma raise_for_status_fine (U : Tables) (response : Response) :
  ~ (400 <= status_code response < 600)%Z ->
  raise_for_status U response = Ok tt.
Proof.
  intros H. unfold raise_for_status.
  destruct (Z.leb_spec 400 (status_code response)); [|reflexivity].
  destruct (Z.ltb_spec (status_code response) 600); [lia | reflexivity].
Qed.

Section WithTables.
Variable U : Tables.

(** Upper-casing a heading name gives one of the six keys of [counts]. *)
Lemma upper_heading_name n :
  python_on_ascii U ->
  In n heading_names ->
  Tree.is_level_tag (upper U n) /\ is_Some (initial_counts !! upper U n).
Proof.
  intros HU H. unfold heading_names in H. simpl in H.
  repeat (destruct H as [<-|H];
          [rewrite (upper_ascii U HU) by (apply ascii_str_check; reflexivity);
           split; [unfold Tree.is_level_tag, Tree.level_tags; simpl; tauto
                  | eexists; reflexivity]|]).
  destruct H.
Qed.

(** The loop over the headings, whatever their names: the nodes it appends
    are as many as it adds to [total], the keys of [counts] stay, and each
    counter grows by the number of appended nodes of its tag. *)
Lemma count_headings_inv (headings : list Element) (counts : gmap str nat)
    (total : nat) (structure : list (str * str)) :
  exists counts' added,
    count_headings U headings counts total structure
    = (counts', total + length added, structure ++ added)
    /\ dom counts' = dom counts
    /\ forall tag, default 0 (counts' !! tag)
                   = default 0 (counts !! tag) + count_tag tag added.
Proof.
  revert counts total structure.
  induction headings as [|h rest IH]; intros counts total structure.
  - exists counts, []. simpl. rewrite List.app_nil_r, Nat.add_0_r.
    split; [reflexivity|]. split; [reflexivity|]. intros tag. unfold count_tag. simpl. lia.
  - cbn [count_headings]. destruct (counts !! upper U (name h)) as [v|] eqn:Hv.
    + destruct (IH (<[upper U (name h) := v + 1]> counts) (total + 1)
                  (structure ++ [(upper U (name h), strip U (elem_text h))]))
        as (counts' & added & Hc & Hd & Ht).
      exists counts', ((upper U (name h), strip U (elem_text h)) :: added).
      rewrite Hc. split.
      * f_equal; [f_equal; simpl; lia|]. now rewrite <- List.app_assoc.
      * split.
        -- rewrite Hd, dom_insert_L.
           assert (upper U (name h) ∈ dom counts) by (apply elem_of_dom; eauto).
           apply set_eq. intros x. rewrite elem_of_union, elem_of_singleton.
           split; [intros [->|]; assumption | now right].
        -- intros tag. rewrite Ht, count_tag_cons. cbn [fst].
           rewrite lookup_insert. case_decide as Hd'.
           ++ subst tag. rewrite Hv, bool_decide_eq_true_2 by reflexivity. simpl. lia.
           ++ rewrite bool_decide_eq_false_2 by exact Hd'. simpl. lia.
    + apply IH.
Qed.

(** The loop over headings whose tag is a key of [counts]: nothing is
    skipped. *)
Lemma count_headings_all (headings : list Element) (counts : gmap str nat)
    (total : nat) (structure : list (str * str)) :
  Forall (fun e => is_Some (counts !! upper U (name e))) headings ->
  exists counts',
    count_headings U headings counts total structure
    = (counts', total + length headings, structure ++ List.map (node_of U) headings).
Proof.
  intros H. revert counts total structure H.
  induction headings as [|h rest IH]; intros counts total structure H.
  - exists counts. simpl. now rewrite List.app_nil_r, Nat.add_0_r.
  - inversion H as [|? ? [v Hv] Hrest]; subst.
    assert (Hrest' : Forall (fun e => is_Some (<[upper U (name h) := v + 1]> counts
                                              !! upper U (name e))) rest).
    { eapply List.Forall_impl; [|exact Hrest]. intros e [x Hx].
      rewrite lookup_insert. case_decide; eauto. }
    destruct (IH _ (total + 1) (structure ++ [node_of U h]) Hrest') as (counts' & Hc).
    exists counts'. cbn [count_headings]. rewrite Hv.
    change (upper U (name h), strip U (elem_text h)) with (node_of U h).
    rewrite Hc. f_equal; [f_equal; simpl; lia|].
    rewrite <- List.app_assoc. reflexivity.
Qed.

(** The headings of a page, as [get_headings] selects them. *)
Lemma page_headings_counted (soup : Soup) :
  exists counts' added,
    count_headings U (find_all heading_names soup) initial_counts 0 []
    = (counts', length added, added)
    /\ dom counts' = list_to_set Tree.level_tags
    /\ forall tag, default 0 (counts' !! tag) = count_tag tag added.
Proof.
  destruct (count_headings_inv (find_all heading_names soup) initial_counts 0 [])
    as (counts' & added & Hc & Hd & Ht).
  exists counts', added. split; [exact Hc|].
  split; [now rewrite Hd, dom_initial_counts|].
  intros tag. now rewrite Ht, initial_counts_zero.
Qed.

Lemma page_headings_all (soup : Soup) :
  python_on_ascii U ->
  exists counts',
    count_headings U (find_all heading_names soup) initial_counts 0 []
    = (counts', length (find_all heading_names soup),
       List.map (node_of U) (find_all heading_names soup))
    /\ Forall (fun p : str * str => Tree.is_level_tag (fst p))
              (List.map (node_of U) (find_all heading_names soup)).
Proof.
  intros HU.
  destruct (count_headings_all (find_all heading_names soup) initial_counts 0 [])
    as (counts' & Hc).
  { apply List.Forall_forall. intros e He.
    apply find_all_names in He as [Hn _]. now apply upper_heading_name. }
  exists counts'. split; [exact Hc|].
  apply List.Forall_forall. intros p Hp.
  apply List.in_map_iff in Hp as (e & <- & He).
  apply find_all_names in He as [Hn _]. now apply upper_heading_name.
Qed.

Variable W : Web.

(** X1. On a successful fetch of a page the parser accepts, every h1..h6
    element of the parsed page becomes exactly one node, in document order,
    with the upper-cased name (one of H1..H6) and the trimmed text; no
    heading is skipped, and the reported status is that of the response. *)
Theorem extracted_structure_in_order url keywords w response soup :
  python_on_ascii U ->
  requests_get W (fetched w) url = Ok response ->
  raise_for_status U response = Ok tt ->
  BeautifulSoup W (text response) = Parsed soup ->
  exists h,
    get_headings U W url keywords w = (Ok h, record_fetch url w)
    /\ structure h
       = List.map (node_of U)
           (List.filter (fun e => existsb (fun t => bool_decide (name e = t)) heading_names)
                        (descendants soup))
    /\ Forall (fun p : str * str => Tree.is_level_tag (fst p)) (structure h)
    /\ total h = length (structure h)
    /\ http_status h = status_code response.
Proof.
  intros HU Hg Hr Hp.
  destruct (get_headings_try_returns U W (fetched w) url keywords response soup Hg Hr Hp)
    as [h E].
  exists h. unfold get_headings. rewrite E. split; [reflexivity|].
  apply get_headings_try_ok in E as (response' & soup' & Hg' & _ & Hp' & Hs & Hc & _).
  rewrite Hg in Hg'. injection Hg' as <-.
  rewrite Hp in Hp'. injection Hp' as <-.
  destruct (page_headings_all soup HU) as (c & Hpc & Hl).
  rewrite Hpc in Hc. injection Hc as _ Ht Hst.
  split; [exact Hst|]. split; [now rewrite Hst|]. split; [|exact Hs].
  rewrite Ht, Hst, List.length_map. reflexivity.
Qed.

(** X2. In every tuple [get_headings] returns, the total is the number of
    nodes of the structure and the count of each tag (0 for a missing key) is
    the number of nodes with that tag. *)
Theorem counts_match_structure url keywords w h w' :
  get_headings U W url keywords w = (Ok h, w') ->
  total h = length (structure h)
  /\ forall tag, default 0 (counts h !! tag) = count_tag tag (structure h).
Proof.
  unfold get_headings.
  destruct (get_headings_try U W (fetched w) url keywords) as [h0|e] eqn:E.
  - intros [= -> _].
    apply get_headings_try_ok in E as (response & soup & _ & _ & _ & _ & Hc & _).
    destruct (page_headings_counted soup) as (c & added & Hp & _ & Hn).
    rewrite Hp in Hc. injection Hc as Hc Ht Hst.
    split; [now rewrite Ht, Hst|].
    intros tag. rewrite Hc, Hst. apply Hn.
  - destruct e; intros [= <- _]. split; [reflexivity|].
    intros tag. simpl. now rewrite lookup_empty.
Qed.

(** X3. After a successful fetch the counts have exactly the six keys
    H1..H6, also for a page without any heading; after a failed fetch they
    have no key at all. *)
Theorem counts_keys url keywords w h w' :
  get_headings U W url keywords w = (Ok h, w') ->
  (forall response, requests_get W (fetched w) url = Ok response ->
                    raise_for_status U response = Ok tt ->
                    dom (counts h) = list_to_set Tree.level_tags)
  /\ (forall msg response, fetch_fails U W (fetched w) url msg response ->
                           dom (counts h) = ∅).
Proof.
  intros H. split.
  - intros response Hg Hr. unfold get_headings in H.
    destruct (get_headings_try U W (fetched w) url keywords) as [h0|e] eqn:E.
    + assert (h0 = h) as -> by congruence.
      apply get_headings_try_ok in E as (response' & soup & _ & _ & _ & _ & Hc & _).
      destruct (page_headings_counted soup) as (c & added & Hp & Hd & _).
      rewrite Hp in Hc. injection Hc as Hc _ _. now rewrite Hc.
    + apply get_headings_try_raises in E
        as [E|[(r & E1 & E2 & _)|(r & msg & _ & _ & _ & ->)]].
      * congruence.
      * rewrite Hg in E1. injection E1 as <-. congruence.
      * discriminate.
  - intros msg response Hf. unfold get_headings in H.
    rewrite (fetch_fails_try U W _ _ keywords _ _ Hf) in H.
    assert (degraded response = h) as <- by congruence. apply dom_empty_L.
Qed.

(** X4. A response with a 4xx or 5xx status is never parsed: whatever its
    body holds, the result is the degraded tuple with that status, and the
    error shown is "Error fetching <url>: " followed by the text of the
    exception of [raise_for_status].  With any other status the body goes to
    the parser: when it is accepted, the status is reported together with
    the parsed page; when it is rejected, the parser's exception leaves
    [get_headings]. *)
Theorem error_status_not_parsed url keywords w response :
  requests_get W (fetched w) url = Ok response ->
  ((400 <= status_code response < 600)%Z ->
     get_headings U W url keywords w
     = (Ok (degraded (Some response)),
        show (st_error (u "Error fetching " ++ url ++ u ": "
                          ++ http_error_text U response))
             (record_fetch url w))
     /\ http_status (degraded (Some response)) = status_code response
     /\ structure (degraded (Some response)) = [])
  /\ (~ (400 <= status_code response < 600)%Z ->
       (forall soup, BeautifulSoup W (text response) = Parsed soup ->
          exists h,
            get_headings U W url keywords w = (Ok h, record_fetch url w)
            /\ http_status h = status_code response
            /\ dom (counts h) = list_to_set Tree.level_tags)
       /\ (forall msg, BeautifulSoup W (text response) = Rejected msg ->
             get_headings U W url keywords w
             = (Raise (OtherException msg), record_fetch url w))).
Proof.
  intros Hg. split.
  - intros Hs.
    assert (Hf : fetch_fails U W (fetched w) url (http_error_text U response)
                   (Some response)).
    { right. exists response. split; [exact Hg|]. now apply raise_for_status_error. }
    unfold get_headings. rewrite (fetch_fails_try U W _ _ keywords _ _ Hf).
    repeat split.
  - intros Hs. pose proof (raise_for_status_fine U response Hs) as Hr. split.
    + intros soup Hp.
      destruct (get_headings_try_returns U W (fetched w) url keywords response soup
                  Hg Hr Hp) as [h E].
      exists h. unfold get_headings. rewrite E. split; [reflexivity|].
      apply get_headings_try_ok in E
        as (response' & soup' & Hg' & _ & Hp' & Hs' & Hc & _).
      rewrite Hg in Hg'. injection Hg' as <-.
      rewrite Hp in Hp'. injection Hp' as <-.
      split; [exact Hs'|].
      destruct (page_headings_counted soup) as (c & added & Hpc & Hd & _).
      rewrite Hpc in Hc. injection Hc as Hc _ _. now rewrite Hc.
    + intros msg Hp. unfold get_headings, get_headings_try.
      rewrite Hg. cbn [mbind result_bind]. rewrite Hr. cbn [mbind result_bind].
      unfold parse. rewrite Hp. reflexivity.
Qed.

(** X5. On a successful fetch of a page the parser accepts, the title is
    the trimmed text of the first element named title, the empty string
    included, and "No Title" only when the page has no such element.  The
    description is decided by the first meta element whose name attribute is
    "description": its trimmed content, or "No Meta Description" when that
    element has no content attribute, even if a later one has. *)
Theorem title_and_description url keywords w response soup :
  requests_get W (fetched w) url = Ok response ->
  raise_for_status U response = Ok tt ->
  BeautifulSoup W (text response) = Parsed soup ->
  exists h,
    get_headings U W url keywords w = (Ok h, record_fetch url w)
    /\ (Forall (fun e => name e <> u "title") (descendants soup) ->
        page_title h = u "No Title")
    /\ (forall pre t post,
          descendants soup = pre ++ t :: post ->
          Forall (fun e => name e <> u "title") pre -> name t = u "title" ->
          page_title h = strip U (elem_text t))
    /\ (Forall (fun e => ~ (name e = u "meta"
                            /\ attrs e !! u "name" = Some (u "description")))
               (descendants soup) ->
        meta_desc h = u "No Meta Description")
    /\ (forall pre m post,
          descendants soup = pre ++ m :: post ->
          Forall (fun e => ~ (name e = u "meta"
                              /\ attrs e !! u "name" = Some (u "description"))) pre ->
          name m = u "meta" -> attrs m !! u "name" = Some (u "description") ->
          meta_desc h = match attrs m !! u "content" with
                        | Some c => strip U c
                        | None => u "No Meta Description"
                        end).
Proof.
  intros Hg Hr Hp.
  destruct (get_headings_try_returns U W (fetched w) url keywords response soup Hg Hr Hp)
    as [h E].
  exists h. unfold get_headings. rewrite E. split; [reflexivity|].
  apply get_headings_try_ok in E
    as (response' & soup' & Hg' & _ & Hp' & _ & _ & _ & Ht & Hm).
  rewrite Hg in Hg'. injection Hg' as <-.
  rewrite Hp in Hp'. injection Hp' as <-.
  assert (Htest : forall e : Element,
             bool_decide (name e = u "title") = false <-> name e <> u "title").
  { intros e. apply bool_decide_eq_false. }
  assert (Hmeta : forall e : Element,
             bool_decide (name e = u "meta")
             && bool_decide (attrs e !! u "name" = Some (u "description")) = false
             <-> ~ (name e = u "meta" /\ attrs e !! u "name" = Some (u "description"))).
  { intros e. rewrite andb_false_iff, !bool_decide_eq_false.
    destruct (decide (name e = u "meta")); tauto. }
  split; [|split; [|split]].
  - intros Hn. rewrite Ht. unfold find. rewrite find_nothing; [reflexivity|].
    eapply List.Forall_impl; [|exact Hn]. intros e. apply Htest.
  - intros pre t post Hd Hpre Hname. rewrite Ht. unfold find. rewrite Hd.
    rewrite find_first; [reflexivity| |now apply bool_decide_eq_true].
    eapply List.Forall_impl; [|exact Hpre]. intros e. apply Htest.
  - intros Hn. rewrite Hm. unfold find_attr. rewrite find_nothing; [reflexivity|].
    eapply List.Forall_impl; [|exact Hn]. intros e. apply Hmeta.
  - intros pre m post Hd Hpre Hname Hattr. rewrite Hm. unfold find_attr. rewrite Hd.
    rewrite find_first; [reflexivity| |].
    + eapply List.Forall_impl; [|exact Hpre]. intros e. apply Hmeta.
    + apply andb_true_iff. split; now apply bool_decide_eq_true.
Qed.

End WithTables.

Lemma extracted_structure_in_order_witness :
  exists h,
    get_headings ascii_tables sample_web (u "http://ok") None empty_world
    = (Ok h, record_fetch (u "http://ok") empty_world)
    /\ structure h = [(u "H1", u "SEO"); (u "H2", u "seo-tools"); (u "H2", u "More");
                      (u "H4", u "Deep")]
    /\ total h = 4.
Proof.
  destruct (extracted_structure_in_order ascii_tables sample_web (u "http://ok") None
              empty_world page_response sample_soup
              ascii_tables_python eq_refl eq_refl eq_refl)
    as (h & E & Hs & _ & Ht & _).
  exists h. split; [exact E|].
  split; [rewrite Hs; reflexivity | rewrite Ht, Hs; reflexivity].
Defined.

Lemma counts_match_structure_witness :
  exists h w',
    get_headings ascii_tables sample_web (u "http://ok") None empty_world = (Ok h, w')
    /\ total h = length (structure h)
    /\ default 0 (counts h !! u "H2") = count_tag (u "H2") (structure h).
Proof.
  destruct (get_headings ascii_tables sample_web (u "http://ok") None empty_world)
    as [[h|e] w'] eqn:E.
  - exists h, w'. split; [reflexivity|].
    destruct (counts_match_structure ascii_tables sample_web _ _ _ _ _ E) as [Ht Hc].
    split; [exact Ht | exact (Hc (u "H2"))].
  - vm_compute in E. discriminate.
Defined.

Lemma counts_keys_witness :
  exists h w',
    get_headings ascii_tables sample_web (u "http://ok") None empty_world = (Ok h, w')
    /\ dom (counts h) = list_to_set Tree.level_tags.
Proof.
  destruct (get_headings ascii_tables sample_web (u "http://ok") None empty_world)
    as [[h|e] w'] eqn:E.
  - exists h, w'. split; [reflexivity|].
    destruct (counts_keys ascii_tables sample_web _ _ _ _ _ E) as [Hk _].
    exact (Hk page_response eq_refl eq_refl).
  - vm_compute in E. discriminate.
Defined.

Lemma error_status_not_parsed_witness :
  get_headings ascii_tables sample_web (u "http://gone") None empty_world
  = (Ok (degraded (Some gone_response)),
     show (st_error (u "Error fetching " ++ u "http://gone" ++ u ": "
                       ++ http_error_text ascii_tables
                            gone_response))
          (record_fetch (u "http://gone") empty_world)).
Proof.
  refine (proj1 (proj1 (error_status_not_parsed ascii_tables sample_web (u "http://gone")
                          None empty_world gone_response eq_refl) _)).
  simpl. lia.
Defined.

(** The message shown for the missing page. *)
Example error_message_shown :
  shown (snd (get_headings ascii_tables sample_web (u "http://gone") None empty_world))
  = [st_error (u "Error fetching http://gone: 404 Client Error: Not Found for url: http://gone")].
Proof. reflexivity. Qed.

(** A page the parser rejects: its exception is not caught. *)
Example parser_exception_not_caught :
  get_headings ascii_tables sample_web (u "http://odd") None empty_world
  = (Raise (OtherException (u "ParserRejectedMarkup")),
     record_fetch (u "http://odd") empty_world).
Proof. reflexivity. Qed.

Lemma title_and_description_witness :
  exists h,
    get_headings ascii_tables sample_web (u "http://ok") None empty_world
    = (Ok h, record_fetch (u "http://ok") empty_world)
    /\ page_title h = u "Tools"
    /\ meta_desc h = u "All about SEO".
Proof.
  destruct (title_and_description ascii_tables sample_web (u "http://ok") None empty_world
              page_response sample_soup
              eq_refl eq_refl eq_refl)
    as (h & E & _ & Ht & _ & Hm).
  exists h. split; [exact E|]. split.
  - refine (Ht [] _ _ eq_refl _ eq_refl). constructor.
  - refine (Hm [_] _ _ eq_refl _ eq_refl eq_refl).
    constructor; [|constructor]. intros [Hn _]. discriminate.
Defined.

End ExtractorExtras.

(** ** Further properties of keyword counting *)

Module KeywordExtras.
Import PyStr Re Extractor StrFacts TableFacts AsciiFacts ReFacts ExtractorFacts Notions
  Samples.

(** *** Matches do not overlap *)

Lemma literals_app a b : literals (a ++ b) = literals a + literals b.
Proof.
  induction a as [|[|c] a IH]; simpl; [reflexivity | exact IH | now rewrite IH].
Qed.

Lemma literals_map_lit l : literals (List.map Lit l) = length l.
Proof. induction l as [|c l IH]; simpl; [reflexivity | now rewrite IH]. Qed.

Lemma literals_pattern (k : str) :
  literals (WordBoundary :: List.map Lit k ++ [WordBoundary]) = length k.
Proof. cbn [literals]. rewrite literals_app, literals_map_lit. simpl. lia. Qed.

Lemma all_chars_cons (f : N -> bool) c s :
  all_chars f (c :: s) = true -> f c = true /\ all_chars f s = true.
Proof. unfold all_chars. simpl. now rewrite andb_true_iff. Qed.

Section WithTables.
Variable U : Tables.

(** A match consumes one character per literal. *)
Lemma match_here_consumes atoms prev s m :
  match_here U atoms prev s = Some m ->
  m = literals atoms /\ m <= length s.
Proof.
  revert prev s m. induction atoms as [|[|c] atoms IH]; intros prev s m; simpl.
  - intros [= <-]. split; [reflexivity | lia].
  - destruct (at_boundary U prev s); [apply IH | discriminate].
  - destruct s as [|d t]; [discriminate|].
    destruct (d =? c)%N; [|discriminate].
    destruct (match_here U atoms (Some d) t) as [k|] eqn:E; [|discriminate].
    intros [= <-]. destruct (IH _ _ _ E) as [-> Hle]. simpl. split; [reflexivity | lia].
Qed.

Lemma scan_bound atoms prev s skip :
  literals atoms * scan U atoms prev s skip <= length s - skip.
Proof.
  revert prev skip. induction s as [|c r IH]; intros prev skip.
  - destruct skip; simpl; [|lia].
    destruct (match_here U atoms prev []) as [m|] eqn:E; [|lia].
    apply match_here_consumes in E as [<- Hle]. simpl in Hle. lia.
  - destruct skip as [|k].
    + cbn [scan].
      destruct (match_here U atoms prev (c :: r)) as [m|] eqn:E.
      * apply match_here_consumes in E as [-> Hle]. simpl in Hle.
        specialize (IH (Some c) (Nat.pred (literals atoms))).
        simpl length. nia.
      * specialize (IH (Some c) 0). simpl length. lia.
    + cbn [scan]. specialize (IH (Some c) k). simpl length. lia.
Qed.

(** X7. Counted matches do not overlap: the count of a keyword times the
    length of the lower-cased keyword (the characters each match covers)
    never exceeds the length of the text; so does the count times the length
    of the keyword as given, whenever lower-casing does not shorten it. *)
Theorem keyword_count_bound (text_content keyword : str) (n : nat) :
  count_keyword U text_content keyword = Ok n ->
  n * length (lower U keyword) <= length text_content
  /\ (length keyword <= length (lower U keyword) ->
      n * length keyword <= length text_content).
Proof.
  rewrite count_keyword_ok. intros [= <-].
  pose proof (scan_bound
                (WordBoundary :: List.map Lit (lower U keyword) ++ [WordBoundary])
                None text_content 0) as H.
  rewrite literals_pattern in H. split; [lia|]. intros Hl. nia.
Qed.

(** *** Whole words *)

(** Inside a run of word characters there is no place for the pattern of a
    non-empty keyword to start. *)
Lemma no_match_inside_word c lits (p : N) s :
  is_word U p = true -> all_chars (is_word U) s = true ->
  match_here U (WordBoundary :: Lit c :: lits) (Some p) s = None.
Proof.
  intros Hp Hs. cbn [match_here]. unfold at_boundary. cbn [word_at]. rewrite Hp.
  destruct s as [|d r]; [reflexivity|].
  apply all_chars_cons in Hs as [Hd _]. cbn [head word_at]. now rewrite Hd.
Qed.

Lemma scan_inside_word c lits prev s skip :
  all_chars (is_word U) s = true ->
  (skip = 0 -> exists p, prev = Some p /\ is_word U p = true) ->
  scan U (WordBoundary :: Lit c :: lits) prev s skip = 0.
Proof.
  revert prev skip. induction s as [|d r IH]; intros prev skip Hs Hprev.
  - destruct skip; [|reflexivity].
    destruct (Hprev eq_refl) as (p & -> & Hp).
    cbn [scan]. now rewrite no_match_inside_word.
  - pose proof Hs as Hs'. apply all_chars_cons in Hs' as [Hd Hr]. destruct skip as [|k].
    + destruct (Hprev eq_refl) as (p & -> & Hp).
      cbn [scan]. rewrite no_match_inside_word by assumption.
      apply IH; [exact Hr | eauto].
    + cbn [scan]. apply IH; [exact Hr | eauto].
Qed.

(** The literals and the closing boundary match a run of word characters
    exactly when the run is the keyword. *)
Lemma match_literals_word (k : str) prev s :
  all_chars (is_word U) s = true ->
  (k = [] -> exists p, prev = Some p /\ is_word U p = true) ->
  match_here U (List.map Lit k ++ [WordBoundary]) prev s
  = if bool_decide (s = k) then Some (length k) else None.
Proof.
  revert prev s. induction k as [|c k IH]; intros prev s Hs Hprev.
  - destruct (Hprev eq_refl) as (p & -> & Hp).
    cbn [List.map app match_here]. unfold at_boundary.
    cbn [word_at]. rewrite Hp.
    destruct s as [|d r]; [reflexivity|].
    apply all_chars_cons in Hs as [Hd _]. cbn [head word_at]. rewrite Hd.
    rewrite bool_decide_eq_false_2 by discriminate. reflexivity.
  - cbn [List.map app match_here].
    destruct s as [|d r]; [rewrite bool_decide_eq_false_2 by discriminate; reflexivity|].
    apply all_chars_cons in Hs as [Hd Hr].
    destruct (N.eqb_spec d c) as [->|Hne].
    + rewrite IH; [|exact Hr|eauto].
      destruct (decide (r = k)) as [->|Hrk].
      * rewrite !bool_decide_eq_true_2 by reflexivity. reflexivity.
      * rewrite !bool_decide_eq_false_2 by congruence. reflexivity.
    + rewrite bool_decide_eq_false_2 by congruence. reflexivity.
Qed.

Lemma match_here_boundary atoms prev s :
  match_here U (WordBoundary :: atoms) prev s
  = if at_boundary U prev s then match_here U atoms prev s else None.
Proof. reflexivity. Qed.

Lemma scan_cons_0 atoms prev c r :
  scan U atoms prev (c :: r) 0
  = match match_here U atoms prev (c :: r) with
    | Some n => S (scan U atoms (Some c) r (Nat.pred n))
    | None => scan U atoms (Some c) r 0
    end.
Proof. reflexivity. Qed.

(** The count in a text whose lower-cased form is one run of word
    characters. *)
Lemma whole_word_count (visible keyword : str) :
  lower U keyword <> [] ->
  all_chars (is_word U) (lower U visible) = true ->
  count_keyword U (lower U visible) keyword
  = Ok (if bool_decide (lower U visible = lower U keyword) then 1 else 0).
Proof.
  intros Hne Hv. rewrite count_keyword_ok. f_equal.
  destruct (lower U keyword) as [|c k] eqn:Ek; [congruence|].
  destruct (lower U visible) as [|d r] eqn:Ev;
    [rewrite bool_decide_eq_false_2 by discriminate; reflexivity|].
  pose proof Hv as Hv'. apply all_chars_cons in Hv' as [Hd Hr].
  rewrite scan_cons_0, match_here_boundary.
  unfold at_boundary. cbn [word_at head]. rewrite Hd. cbn [xorb].
  rewrite (match_literals_word (c :: k) None (d :: r) Hv) by discriminate.
  change (List.map Lit (c :: k) ++ [WordBoundary])
    with (Lit c :: (List.map Lit k ++ [WordBoundary])).
  repeat case_bool_decide; try congruence.
  - f_equal. apply scan_inside_word; [exact Hr | eauto].
  - apply scan_inside_word; [exact Hr | eauto].
Qed.

(** X6. Keyword matching ignores the case of ASCII letters on both sides:
    for an ASCII keyword and an ASCII text, the keyword, its upper-case and
    its lower-case form get the same count, and so do the text and its
    upper-case form once [get_headings] has lower-cased them.  (Outside
    ASCII, [str.lower] does not undo [str.upper].) *)
Theorem keyword_count_ignores_case (visible keyword : str) :
  python_on_ascii U ->
  ascii_str visible -> ascii_str keyword ->
  count_keyword U (lower U visible) (upper U keyword)
  = count_keyword U (lower U visible) keyword
  /\ count_keyword U (lower U visible) (lower U keyword)
     = count_keyword U (lower U visible) keyword
  /\ count_keyword U (lower U (upper U visible)) keyword
     = count_keyword U (lower U visible) keyword.
Proof.
  intros HU Hv Hk. unfold count_keyword, pattern_of.
  rewrite (lower_upper_ascii U HU keyword Hk), (lower_idem_ascii U HU keyword Hk),
    (lower_upper_ascii U HU visible Hv).
  auto.
Qed.

(** X8. Whole words only: when the lower-cased text is one run of word
    characters, a keyword is counted once if the lower-cased text is the
    lower-cased keyword, and not at all if the text is a longer or another
    word.  In particular this holds for an ASCII text made of letters,
    digits and underscores and a non-empty ASCII keyword. *)
Theorem keyword_inside_word_not_counted (visible keyword : str) :
  (lower U keyword <> [] ->
   all_chars (is_word U) (lower U visible) = true ->
   count_keyword U (lower U visible) keyword
   = Ok (if bool_decide (lower U visible = lower U keyword) then 1 else 0))
  /\ (python_on_ascii U ->
      keyword <> [] -> ascii_str keyword ->
      ascii_str visible -> all_chars Ascii7.word visible = true ->
      count_keyword U (lower U visible) keyword
      = Ok (if bool_decide (lower U visible = lower U keyword) then 1 else 0)).
Proof.
  split; [apply whole_word_count|].
  intros HU Hne Hk Hv Hw. apply whole_word_count.
  - rewrite (lower_U_map U HU keyword Hk). destruct keyword; [congruence | discriminate].
  - now apply all_word_lower_ascii.
Qed.

(** *** Literal keywords *)

(** X22. Keywords are matched literally: whatever characters a keyword
    holds (dots, plus signs, brackets, backslashes, spaces), its pattern is
    accepted and stands for a word boundary, the lower-cased keyword
    character by character, and a word boundary; counting never raises. *)
Theorem keyword_matched_literally (text_content keyword : str) :
  compile (pattern_of U keyword)
  = Some (WordBoundary :: List.map Lit (lower U keyword) ++ [WordBoundary])
  /\ literals (WordBoundary :: List.map Lit (lower U keyword) ++ [WordBoundary])
     = length (lower U keyword)
  /\ exists n, count_keyword U text_content keyword = Ok n.
Proof.
  split; [apply compile_pattern_of|]. split.
  - apply literals_pattern.
  - eexists. apply count_keyword_ok.
Qed.

(** *** What is stored *)

(** The keyword loop stores, for each keyword that is not blank, its count
    under the keyword itself, and leaves every other key as it was. *)
Lemma count_keywords_values (text_content : str) (keywords : list str)
    (acc : gmap str nat) :
  exists m,
    count_keywords U text_content keywords acc = Ok m
    /\ forall k n,
         count_keyword U text_content k = Ok n ->
         m !! k = if existsb (fun x => bool_decide (k = x)) keywords && negb (blank U k)
                  then Some n else acc !! k.
Proof.
  revert acc. induction keywords as [|k0 rest IH]; intros acc.
  - exists acc. split; [reflexivity|]. intros k n _. reflexivity.
  - cbn [count_keywords existsb]. destruct (truthy (strip U k0)) eqn:E.
    + rewrite count_keyword_ok. cbn [mbind result_bind].
      destruct (IH (<[k0 := scan U
          (WordBoundary :: List.map Lit (lower U k0) ++ [WordBoundary])
          None text_content 0]> acc)) as (m & Hm & Hv).
      exists m. split; [exact Hm|]. intros k n Hn. rewrite (Hv k n Hn).
      destruct (decide (k = k0)) as [->|Hne].
      * rewrite bool_decide_eq_true_2 by reflexivity.
        unfold blank. rewrite E. cbn [orb negb andb].
        rewrite andb_true_r, lookup_insert_eq.
        rewrite count_keyword_ok in Hn. injection Hn as <-.
        now destruct (existsb (fun x => bool_decide (k0 = x)) rest).
      * rewrite (bool_decide_eq_false_2 _ Hne). cbn [orb].
        rewrite lookup_insert_ne by congruence. reflexivity.
    + destruct (IH acc) as (m & Hm & Hv).
      exists m. split; [exact Hm|]. intros k n Hn. rewrite (Hv k n Hn).
      destruct (decide (k = k0)) as [->|Hne].
      * rewrite bool_decide_eq_true_2 by reflexivity.
        unfold blank. rewrite E. cbn [orb negb]. now rewrite !andb_false_r.
      * rewrite (bool_decide_eq_false_2 _ Hne). reflexivity.
Qed.

Variable W : Web.

(** X9. On a successful fetch of a page the parser accepts, the keyword
    counts hold, for each given keyword that is not blank, the number of
    whole-word matches of that keyword in the lower-cased visible text,
    stored under the keyword as given; blank keywords (nothing left after
    trimming) and strings that were not given have no entry. *)
Theorem keyword_counts_values url keywords w response soup :
  requests_get W (fetched w) url = Ok response ->
  raise_for_status U response = Ok tt ->
  BeautifulSoup W (text response) = Parsed soup ->
  exists h,
    get_headings U W url keywords w = (Ok h, record_fetch url w)
    /\ forall k,
         exists n,
           count_keyword U (lower U (get_text soup)) k = Ok n
           /\ keyword_counts h !! k
              = if existsb (fun x => bool_decide (k = x)) (keywords_given keywords)
                   && negb (blank U k)
                then Some n else None.
Proof.
  intros Hg Hr Hp.
  destruct (get_headings_try_returns U W (fetched w) url keywords response soup Hg Hr Hp)
    as [h E].
  exists h. unfold get_headings. rewrite E. split; [reflexivity|].
  apply get_headings_try_ok in E as (response' & soup' & Hg' & _ & Hp' & _ & _ & Hk & _).
  rewrite Hg in Hg'. injection Hg' as <-.
  rewrite Hp in Hp'. injection Hp' as <-.
  intros k. eexists. split; [apply count_keyword_ok|].
  destruct (keywords_given keywords) as [|k0 kws] eqn:Ek.
  - rewrite Hk. cbn [existsb andb]. apply lookup_empty.
  - destruct (count_keywords_values (lower U (get_text soup)) (k0 :: kws) ∅)
      as (m & Hm & Hv).
    rewrite Hk in Hm. injection Hm as <-.
    rewrite (Hv k _ (count_keyword_ok U _ k)), lookup_empty. reflexivity.
Qed.

End WithTables.

Lemma keyword_count_bound_witness :
  3 * length (lower ascii_tables (u "seo")) <= length (u "seo seo-tools seo.")
  /\ 3 * length (u "seo") <= length (u "seo seo-tools seo.").
Proof.
  destruct (keyword_count_bound ascii_tables (u "seo seo-tools seo.") (u "seo") 3 eq_refl)
    as [H1 H2].
  split; [exact H1|]. apply H2. vm_compute. lia.
Defined.

Lemma keyword_count_ignores_case_witness :
  count_keyword ascii_tables (lower ascii_tables (u "Seo tools")) (upper ascii_tables (u "Seo"))
  = count_keyword ascii_tables (lower ascii_tables (u "Seo tools")) (u "Seo")
  /\ count_keyword ascii_tables (lower ascii_tables (upper ascii_tables (u "Seo tools")))
       (u "Seo")
     = Ok 1.
Proof.
  destruct (keyword_count_ignores_case ascii_tables (u "Seo tools") (u "Seo")
              ascii_tables_python)
    as (H1 & _ & H3); [apply ascii_str_check; reflexivity..|].
  split; [exact H1|]. rewrite H3. reflexivity.
Defined.

Lemma keyword_inside_word_not_counted_witness :
  count_keyword ascii_tables (lower ascii_tables (u "SEOtools")) (u "seo") = Ok 0
  /\ count_keyword ascii_tables (lower ascii_tables (u "SEO")) (u "seo") = Ok 1.
Proof.
  split.
  - apply (proj2 (keyword_inside_word_not_counted ascii_tables (u "SEOtools") (u "seo"))
             ascii_tables_python);
      [discriminate | apply ascii_str_check; reflexivity
       | apply ascii_str_check; reflexivity | reflexivity].
  - apply (proj1 (keyword_inside_word_not_counted ascii_tables (u "SEO") (u "seo")));
      [discriminate | reflexivity].
Defined.

Lemma keyword_counts_values_witness :
  exists h,
    get_headings ascii_tables sample_web (u "http://ok")
      (Some [u "SEO"; u "  "; u "Tools"]) empty_world
    = (Ok h, record_fetch (u "http://ok") empty_world)
    /\ keyword_counts h !! u "SEO" = Some 3
    /\ keyword_counts h !! u "  " = None
    /\ keyword_counts h !! u "seo" = None.
Proof.
  destruct (keyword_counts_values ascii_tables sample_web (u "http://ok")
              (Some [u "SEO"; u "  "; u "Tools"]) empty_world
              page_response sample_soup
              eq_refl eq_refl eq_refl)
    as (h & E & Hv).
  exists h. split; [exact E|].
  split; [|split].
  - destruct (Hv (u "SEO")) as (n & Hn & ->). vm_compute in Hn. injection Hn as <-.
    reflexivity.
  - destruct (Hv (u "  ")) as (n & Hn & ->). reflexivity.
  - destruct (Hv (u "seo")) as (n & Hn & ->). reflexivity.
Defined.

End KeywordExtras.

(** ** Further properties of the tree renderer *)

Module TreeExtras.
Import PyStr Tree StrFacts TableFacts TreeFacts Notions Samples.

Lemma join_map_split {A} (f : A -> str) (pre : list A) (x : A) (post : list A) :
  join (List.map f (pre ++ x :: post))
  = join (List.map f pre) ++ f x ++ join (List.map f post).
Proof. rewrite List.map_app, join_app. reflexivity. Qed.

Section WithTables.
Variable U : Tables.

Lemma tag_level_digit tag :
  digit_tag U tag -> tag_level U tag = Ok (numeric_level U tag).
Proof.
  intros (c & d & Hc & Hd). unfold tag_level, second_char, numeric_level, int_of_char.
  rewrite Hc. cbn [mbind result_bind]. rewrite Hd. reflexivity.
Qed.

Lemma numeric_level_range tag :
  decimal_range U -> digit_tag U tag -> (0 <= numeric_level U tag <= 9)%Z.
Proof.
  intros HR (c & d & Hc & Hd). unfold numeric_level. rewrite Hc, Hd.
  exact (HR c d Hd).
Qed.

Lemma tag_level_not_digit tag :
  ~ digit_tag U tag -> tag_level U tag = Raise (tag_error U tag).
Proof.
  intros H. unfold tag_level, second_char, tag_error, int_of_char, digit_tag in *.
  destruct (nth_error tag 1) as [c|]; [|reflexivity].
  cbn [mbind result_bind]. destruct (decimal U c) as [d|] eqn:E; [|reflexivity].
  exfalso. apply H. eauto.
Qed.

Lemma tag_level_ok_digit tag n : tag_level U tag = Ok n -> digit_tag U tag.
Proof.
  unfold tag_level, second_char, int_of_char, digit_tag.
  destruct (nth_error tag 1) as [c|]; [|discriminate].
  cbn [mbind result_bind]. destruct (decimal U c) as [d|] eqn:E; [|discriminate]. eauto.
Qed.

Lemma digit_tags_parse (structure : list node) :
  Forall (fun p : node => digit_tag U (fst p)) structure ->
  Forall (fun p : node => exists n, tag_level U (fst p) = Ok n) structure.
Proof.
  intros H. eapply List.Forall_impl; [|exact H].
  intros p Hp. eexists. now apply tag_level_digit.
Qed.

Lemma map_result_digit (structure : list node) :
  Forall (fun p : node => digit_tag U (fst p)) structure ->
  map_result (fun p : node => tag_level U (fst p)) structure
  = Ok (List.map (fun p : node => numeric_level U (fst p)) structure).
Proof.
  induction 1 as [|p l Hp _ IH]; [reflexivity|].
  cbn [map_result List.map]. rewrite (tag_level_digit _ Hp).
  cbn [mbind result_bind]. rewrite IH. reflexivity.
Qed.

(** The first tag that cannot be parsed decides the exception. *)
Lemma map_result_first_error (pre : list node) (bad : node) (post : list node) e :
  Forall (fun p : node => digit_tag U (fst p)) pre ->
  tag_level U (fst bad) = Raise e ->
  map_result (fun p : node => tag_level U (fst p)) (pre ++ bad :: post) = Raise e.
Proof.
  intros Hpre Hbad. induction Hpre as [|p l Hp _ IH].
  - cbn [app map_result]. now rewrite Hbad.
  - rewrite <- List.app_comm_cons. cbn [map_result].
    rewrite (tag_level_digit _ Hp). cbn [mbind result_bind].
    now rewrite IH.
Qed.

Lemma build_tree_digit (structure : list node) :
  structure <> [] ->
  Forall (fun p : node => digit_tag U (fst p)) structure ->
  build_tree U structure
  = Ok (join (List.map
          (fun p : node => rendered_line (Z.to_nat (indent_units U structure (fst p)))
                             (fst p) (snd p))
          structure)).
Proof.
  intros Hne Hall. destruct structure as [|x l]; [congruence|].
  unfold build_tree. rewrite (map_result_digit _ Hall).
  cbn [mbind result_bind]. rewrite py_min_levels. cbn [mbind result_bind].
  rewrite (build_tree_loop_lines U _ _ _ (digit_tags_parse _ Hall)). reflexivity.
Qed.

Lemma map_result_ok_digit (l : list node) levels :
  map_result (fun p : node => tag_level U (fst p)) l = Ok levels ->
  Forall (fun p : node => digit_tag U (fst p)) l.
Proof.
  revert levels. induction l as [|p l IH]; intros levels El; [constructor|].
  cbn [map_result] in El.
  destruct (tag_level U (fst p)) as [n|e] eqn:Ep; [|discriminate].
  cbn [mbind result_bind] in El.
  destruct (map_result (fun p : node => tag_level U (fst p)) l) as [ls|e] eqn:El';
    [|discriminate].
  constructor; [exact (tag_level_ok_digit _ _ Ep) | exact (IH _ eq_refl)].
Qed.

(** A sequence [build_tree] renders has only tags with a digit. *)
Lemma build_tree_ok_digit (structure : list node) out :
  build_tree U structure = Ok out ->
  Forall (fun p : node => digit_tag U (fst p)) structure.
Proof.
  intros E. destruct structure as [|x l]; [constructor|].
  unfold build_tree in E.
  destruct (map_result (fun p : node => tag_level U (fst p)) (x :: l))
    as [levels|e] eqn:El; [|discriminate].
  exact (map_result_ok_digit _ _ El).
Qed.

(** The minimum level of two sequences put together. *)
Lemma min_level_of_app (s1 s2 : list node) :
  s1 <> [] -> s2 <> [] ->
  min_level_of U (s1 ++ s2) = Z.min (min_level_of U s1) (min_level_of U s2).
Proof.
  intros H1 H2.
  assert (H12 : s1 ++ s2 <> []) by (destruct s1; [congruence | discriminate]).
  destruct (min_level_of_attained U _ H12) as (p & Hp & Ep).
  destruct (min_level_of_attained U _ H1) as (p1 & Hp1 & Ep1).
  destruct (min_level_of_attained U _ H2) as (p2 & Hp2 & Ep2).
  pose proof (min_level_of_le U (s1 ++ s2) p1 (List.in_or_app _ _ _ (or_introl Hp1))) as L1.
  pose proof (min_level_of_le U (s1 ++ s2) p2 (List.in_or_app _ _ _ (or_intror Hp2))) as L2.
  apply List.in_app_or in Hp as [Hp|Hp].
  - pose proof (min_level_of_le U s1 p Hp). lia.
  - pose proof (min_level_of_le U s2 p Hp). lia.
Qed.

(** The shape of a returned string. *)
Lemma build_tree_out_shape (structure : list node) out :
  build_tree U structure = Ok out ->
  out <> []
  /\ (structure = [] -> out = no_headings)
  /\ (structure <> [] -> ends_with_char nl_char out = true).
Proof.
  intros E. pose proof (build_tree_ok_digit structure out E) as Hall.
  destruct structure as [|x l].
  - injection E as <-. split; [discriminate|]. split; [reflexivity | congruence].
  - rewrite build_tree_digit in E by (discriminate || exact Hall).
    assert (Hend : ends_with_char nl_char
              (join (List.map (fun p : node =>
                 rendered_line (Z.to_nat (indent_units U (x :: l) (fst p))) (fst p) (snd p))
                 (x :: l))) = true)
      by (apply TreeClaims.rendering_ends_with_newline; discriminate).
    remember (join (List.map (fun p : node =>
                 rendered_line (Z.to_nat (indent_units U (x :: l) (fst p))) (fst p) (snd p))
                 (x :: l))) as r eqn:Er.
    assert (r = out) as -> by congruence. clear Er.
    split; [|split; [discriminate | intros _; exact Hend]].
    intros Hempty. rewrite Hempty in Hend. discriminate.
Qed.

(** X10. The renderer is lenient about tags: any non-empty sequence whose
    tags have a digit as second character (also "H0", "H9" or "x3") is
    rendered line by line with [level - minLevel] two-space units, between 0
    and 9 of them (a digit having a value from 0 to 9). *)
Theorem build_tree_any_digit_tag (structure : list node) :
  decimal_range U ->
  structure <> [] ->
  Forall (fun p : node => digit_tag U (fst p)) structure ->
  build_tree U structure
  = Ok (join (List.map
          (fun p : node => rendered_line (Z.to_nat (indent_units U structure (fst p)))
                             (fst p) (snd p))
          structure))
  /\ forall p, In p structure -> (0 <= indent_units U structure (fst p) <= 9)%Z.
Proof.
  intros HR Hne Hall. split; [now apply build_tree_digit|].
  intros p Hin. unfold indent_units.
  pose proof (min_level_of_le U _ _ Hin) as Hle.
  destruct (min_level_of_attained U _ Hne) as (q & Hq & Hm).
  rewrite List.Forall_forall in Hall.
  pose proof (numeric_level_range _ HR (Hall p Hin)) as Hp.
  pose proof (numeric_level_range _ HR (Hall q Hq)) as Hq'. lia.
Qed.

(** X11. A tag whose second character is missing or is not a digit that
    [int] accepts makes [build_tree] raise before any line is produced; the
    first such tag decides the exception: [IndexError] when it has fewer than
    two characters, the [ValueError] of [int] on its second character
    otherwise. *)
Theorem build_tree_bad_tag (pre : list node) (bad : node) (post : list node) :
  Forall (fun p : node => digit_tag U (fst p)) pre ->
  ~ digit_tag U (fst bad) ->
  build_tree U (pre ++ bad :: post) = Raise (tag_error U (fst bad))
  /\ (length (fst bad) < 2 ->
      tag_error U (fst bad) = IndexError (u "string index out of range"))
  /\ (2 <= length (fst bad) ->
      exists c, nth_error (fst bad) 1 = Some c
                /\ decimal U c = None
                /\ tag_error U (fst bad) = ValueError (int_error_text U c)).
Proof.
  intros Hpre Hbad. split; [|split].
  - pose proof (map_result_first_error pre bad post _ Hpre (tag_level_not_digit _ Hbad)) as E.
    destruct (pre ++ bad :: post) as [|x l] eqn:El.
    + now destruct pre.
    + unfold build_tree. rewrite E. reflexivity.
  - unfold tag_error. destruct (fst bad) as [|a [|b r]]; simpl; [reflexivity..|lia].
  - unfold tag_error, digit_tag in *.
    destruct (fst bad) as [|a [|b r]]; simpl; [lia..|]. intros _.
    exists b. split; [reflexivity|]. split; [|reflexivity].
    destruct (decimal U b) as [d|] eqn:E; [|reflexivity].
    exfalso. apply Hbad. exists b, d. split; [reflexivity | exact E].
Qed.

(** X12. With tags H1..H6 the shallowest level present is flush left: the
    text [build_tree] returns holds, at the start of a line, the line of a
    node without any indentation, beginning with the dash; no node is
    indented by more than five units, and a deeper level is indented more. *)
Theorem top_level_flush_left (structure : list node) :
  python_on_ascii U ->
  structure <> [] ->
  Forall (fun p : node => is_level_tag (fst p)) structure ->
  (exists pre tag text post,
      structure = pre ++ (tag, text) :: post
      /\ build_tree U structure
         = Ok (join (List.map
                  (fun p : node =>
                     rendered_line (Z.to_nat (indent_units U structure (fst p)))
                       (fst p) (snd p)) pre)
               ++ (u "- " ++ tag ++ u ": " ++ text ++ nl)
               ++ join (List.map
                  (fun p : node =>
                     rendered_line (Z.to_nat (indent_units U structure (fst p)))
                       (fst p) (snd p)) post))
      /\ (pre = []
          \/ ends_with_char nl_char
               (join (List.map
                  (fun p : node =>
                     rendered_line (Z.to_nat (indent_units U structure (fst p)))
                       (fst p) (snd p)) pre)) = true))
  /\ (forall p, In p structure -> (0 <= indent_units U structure (fst p) <= 5)%Z)
  /\ (forall p q : node, (numeric_level U (fst p) < numeric_level U (fst q))%Z ->
                  (indent_units U structure (fst p) < indent_units U structure (fst q))%Z).
Proof.
  intros HU Hne Hall.
  destruct (min_level_of_attained U _ Hne) as ([tag text] & Hq & Hm). simpl in Hm.
  split; [|split].
  - destruct (List.in_split _ _ Hq) as (pre & post & Hsplit).
    exists pre, tag, text, post. split; [exact Hsplit|]. split.
    + rewrite (TreeClaims.build_tree_render U structure HU Hne Hall). f_equal.
      assert (E : indent_units U structure tag = 0%Z) by (unfold indent_units; lia).
      transitivity
        (join (List.map
           (fun p : node =>
              rendered_line (Z.to_nat (indent_units U structure (fst p))) (fst p) (snd p))
           (pre ++ (tag, text) :: post))); [do 2 f_equal; exact Hsplit|].
      rewrite join_map_split. cbn [fst snd]. rewrite E. reflexivity.
    + destruct pre as [|x pre]; [now left | right].
      apply TreeClaims.rendering_ends_with_newline. discriminate.
  - intros p Hin. unfold indent_units.
    pose proof (min_level_of_le U _ _ Hin) as Hle.
    rewrite List.Forall_forall in Hall.
    destruct (tag_level_level_tag U _ HU (Hall p Hin)) as [_ Hp].
    destruct (tag_level_level_tag U _ HU (Hall _ Hq)) as [_ Hq']. simpl in Hq'. lia.
  - intros p q Hlt. unfold indent_units. lia.
Qed.

(** X13. Renderings compose: when two non-empty sequences have the same
    shallowest level, the tree of their concatenation is the tree of the
    first followed by the tree of the second. *)
Theorem build_tree_app (s1 s2 : list node) (out1 out2 : str) :
  s1 <> [] -> s2 <> [] ->
  min_level_of U s1 = min_level_of U s2 ->
  build_tree U s1 = Ok out1 ->
  build_tree U s2 = Ok out2 ->
  build_tree U (s1 ++ s2) = Ok (out1 ++ out2).
Proof.
  intros H1 H2 Hm E1 E2.
  pose proof (build_tree_ok_digit _ _ E1) as D1.
  pose proof (build_tree_ok_digit _ _ E2) as D2.
  rewrite (build_tree_digit _ H1 D1) in E1. rewrite (build_tree_digit _ H2 D2) in E2.
  injection E1 as <-. injection E2 as <-.
  rewrite build_tree_digit;
    [|destruct s1; [congruence | discriminate] | apply List.Forall_app; now split].
  f_equal. rewrite List.map_app, join_app.
  unfold indent_units. rewrite (min_level_of_app _ _ H1 H2), <- Hm, Z.min_id. reflexivity.
Qed.

(** X14. [build_tree] returns a string exactly for the sequences whose tags
    all have, as second character, a digit that [int] accepts (the empty
    sequence included).  Whenever it returns, the string is not empty: it is
    the message for the empty sequence and ends with a newline otherwise. *)
Theorem build_tree_returns_iff (structure : list node) :
  ((exists out, build_tree U structure = Ok out)
   <-> Forall (fun p : node => digit_tag U (fst p)) structure)
  /\ (forall out, build_tree U structure = Ok out ->
        out <> []
        /\ (structure = [] -> out = no_headings)
        /\ (structure <> [] -> ends_with_char nl_char out = true)).
Proof.
  split.
  - split; [intros [out E]; exact (build_tree_ok_digit _ _ E)|].
    intros Hall. destruct structure as [|x l]; [now eexists|].
    eexists. apply build_tree_digit; [discriminate | exact Hall].
  - intros out E. now apply build_tree_out_shape.
Qed.

End WithTables.

Lemma build_tree_any_digit_tag_witness :
  build_tree ascii_tables [(u "H9", u "deep"); (u "x3", u "odd"); (u "H0", u "zero")]
  = Ok (u "                  - H9: deep" ++ nl ++ u "      - x3: odd" ++ nl
        ++ u "- H0: zero" ++ nl).
Proof.
  destruct (build_tree_any_digit_tag ascii_tables
              [(u "H9", u "deep"); (u "x3", u "odd"); (u "H0", u "zero")]
              ascii_tables_range)
    as [E _].
  - discriminate.
  - repeat constructor; eexists _, _; split; reflexivity.
  - rewrite E. reflexivity.
Defined.

Lemma build_tree_bad_tag_witness :
  build_tree ascii_tables [(u "H2", u "fine"); (u "H", u "short"); (u "Hx", u "letter")]
  = Raise (IndexError (u "string index out of range"))
  /\ build_tree ascii_tables [(u "H2", u "fine"); (u "Hx", u "letter"); (u "H", u "short")]
     = Raise (ValueError (int_error_text ascii_tables 120%N)).
Proof.
  split.
  - refine (proj1 (build_tree_bad_tag ascii_tables [(u "H2", u "fine")] (u "H", u "short")
                     [(u "Hx", u "letter")] _ _)).
    + repeat constructor. eexists _, _. split; reflexivity.
    + intros (c & d & Hc & _). discriminate.
  - refine (proj1 (build_tree_bad_tag ascii_tables [(u "H2", u "fine")] (u "Hx", u "letter")
                     [(u "H", u "short")] _ _)).
    + repeat constructor. eexists _, _. split; reflexivity.
    + intros (c & d & Hc & Hd). injection Hc as <-. discriminate.
Defined.

Lemma top_level_flush_left_witness :
  exists pre tag text post,
    [(u "H3", u "a"); (u "H2", u "b"); (u "H4", u "c")] = pre ++ (tag, text) :: post
    /\ exists out,
         build_tree ascii_tables [(u "H3", u "a"); (u "H2", u "b"); (u "H4", u "c")]
         = Ok (out ++ (u "- " ++ tag ++ u ": " ++ text ++ nl)
                   ++ join (List.map
                        (fun p : node =>
                           rendered_line
                             (Z.to_nat (indent_units ascii_tables
                                          [(u "H3", u "a"); (u "H2", u "b"); (u "H4", u "c")]
                                          (fst p)))
                             (fst p) (snd p)) post)).
Proof.
  destruct (top_level_flush_left ascii_tables
              [(u "H3", u "a"); (u "H2", u "b"); (u "H4", u "c")] ascii_tables_python)
    as ((pre & tag & text & post & Hs & E & _) & _).
  - discriminate.
  - apply TreeClaims.level_tags_sample. reflexivity.
  - exists pre, tag, text, post. split; [exact Hs|]. eexists. exact E.
Defined.

Lemma build_tree_app_witness :
  build_tree ascii_tables
    ([(u "H2", u "a"); (u "H3", u "b")] ++ [(u "H4", u "c"); (u "H2", u "d")])
  = Ok ((u "- H2: a" ++ nl ++ u "  - H3: b" ++ nl)
        ++ (u "    - H4: c" ++ nl ++ u "- H2: d" ++ nl)).
Proof.
  apply build_tree_app; try discriminate; reflexivity.
Defined.

End TreeExtras.

(** ** Trimming and splitting *)

Module StripFacts.
Import PyStr StrFacts Notions.

(** The fields of a split hold no separator. *)
Lemma split_on_fields sep s : Forall (fun f => count_char sep f = 0) (split_on sep s).
Proof.
  induction s as [|d r IH]; simpl.
  - repeat constructor.
  - destruct (N.eqb d sep) eqn:E.
    + constructor; [reflexivity | exact IH].
    + destruct (split_on sep r) as [|f fs].
      * repeat constructor. simpl. now rewrite E.
      * inversion IH; subst. constructor; [|assumption]. simpl. rewrite E. assumption.
Qed.

Section WithTables.
Variable U : Tables.

Lemma lstrip_first s c : head (lstrip U s) = Some c -> is_space U c = false.
Proof.
  induction s as [|d r IH]; simpl; [discriminate|].
  destruct (is_space U d) eqn:E; [exact IH|]. simpl. now intros [= <-].
Qed.

Lemma rstrip_cons d r :
  rstrip U (d :: r)
  = match rstrip U r with
    | [] => if is_space U d then [] else [d]
    | r' => d :: r'
    end.
Proof. reflexivity. Qed.

Lemma rstrip_last s c : last_char (rstrip U s) = Some c -> is_space U c = false.
Proof.
  induction s as [|d r IH]; [discriminate|].
  rewrite rstrip_cons. destruct (rstrip U r) as [|e r'] eqn:E.
  - destruct (is_space U d) eqn:Ed; simpl; [discriminate|]. now intros [= <-].
  - intros H. apply IH. exact H.
Qed.

Lemma head_rstrip s c : head (rstrip U s) = Some c -> head s = Some c.
Proof.
  destruct s as [|d r]; [discriminate|]. rewrite rstrip_cons.
  destruct (rstrip U r); [destruct (is_space U d); [discriminate|]|]; simpl; auto.
Qed.

Lemma strip_no_outer_space s : no_outer_space U (strip U s).
Proof.
  unfold no_outer_space, strip. split.
  - intros c H. apply (lstrip_first s). now apply head_rstrip.
  - apply rstrip_last.
Qed.

Lemma lstrip_fixed s :
  (forall c, head s = Some c -> is_space U c = false) -> lstrip U s = s.
Proof.
  destruct s as [|d r]; [reflexivity|]. intros H. simpl.
  now rewrite (H d eq_refl).
Qed.

Lemma rstrip_fixed s :
  (forall c, last_char s = Some c -> is_space U c = false) -> rstrip U s = s.
Proof.
  induction s as [|d r IH]; [reflexivity|]. intros H. rewrite rstrip_cons.
  destruct r as [|e r'].
  - simpl. now rewrite (H d eq_refl).
  - rewrite IH; [reflexivity|]. intros c Hc. apply H. exact Hc.
Qed.

(** A string without whitespace at its ends is left as it is. *)
Lemma strip_fixed s : no_outer_space U s -> strip U s = s.
Proof.
  intros [Hf Hl]. unfold strip. rewrite (lstrip_fixed s Hf). now apply rstrip_fixed.
Qed.

Lemma strip_idem s : strip U (strip U s) = strip U s.
Proof. apply strip_fixed, strip_no_outer_space. Qed.

Lemma lstrip_count c s : count_char c (lstrip U s) <= count_char c s.
Proof.
  induction s as [|d r IH]; simpl; [lia|].
  destruct (is_space U d); simpl; lia.
Qed.

Lemma rstrip_count c s : count_char c (rstrip U s) <= count_char c s.
Proof.
  induction s as [|d r IH]; [simpl; lia|]. rewrite rstrip_cons.
  destruct (rstrip U r) as [|e r'].
  - destruct (is_space U d); simpl in *; lia.
  - simpl in *. lia.
Qed.

Lemma strip_count c s : count_char c (strip U s) <= count_char c s.
Proof.
  unfold strip. pose proof (rstrip_count c (lstrip U s)). pose proof (lstrip_count c s).
  lia.
Qed.

(** A string of whitespace only trims to nothing, and so does each of its
    lines. *)
Lemma lstrip_all_space s : all_chars (is_space U) s = true -> lstrip U s = [].
Proof.
  induction s as [|d r IH]; [reflexivity|]. unfold all_chars in *. simpl.
  rewrite andb_true_iff. intros [-> Hr]. now apply IH.
Qed.

Lemma strip_all_space s : all_chars (is_space U) s = true -> strip U s = [].
Proof. intros H. unfold strip. now rewrite lstrip_all_space. Qed.

Lemma split_on_all_space sep s :
  all_chars (is_space U) s = true ->
  Forall (fun f => all_chars (is_space U) f = true) (split_on sep s).
Proof.
  unfold all_chars. induction s as [|d r IH]; simpl.
  - intros _. repeat constructor.
  - rewrite andb_true_iff. intros [Hd Hr]. specialize (IH Hr).
    destruct (N.eqb d sep).
    + constructor; [reflexivity | exact IH].
    + destruct (split_on sep r) as [|f fs].
      * repeat constructor. simpl. now rewrite Hd.
      * inversion IH; subst. constructor; [|assumption]. simpl. now rewrite Hd.
Qed.

End WithTables.

End StripFacts.

(** ** Which exceptions leave the extractor *)

Module ExtractorOutcome.
Import PyStr Extractor ExtractorFacts Notions Samples.

Section WithTables.
Variable U : Tables.
Variable W : Web.

Lemma get_headings_raise_inv url keywords w e :
  fst (get_headings U W url keywords w) = Raise e ->
  ((requests_get W (fetched w) url = Raise e
    /\ forall msg response, e <> RequestException msg response)
   \/ exists r msg, requests_get W (fetched w) url = Ok r
                    /\ raise_for_status U r = Ok tt
                    /\ BeautifulSoup W (text r) = Rejected msg
                    /\ e = OtherException msg)
  /\ snd (get_headings U W url keywords w) = record_fetch url w.
Proof.
  unfold get_headings.
  destruct (get_headings_try U W (fetched w) url keywords) as [h|e0] eqn:E;
    [discriminate|].
  apply get_headings_try_raises in E
    as [E|[(r & E1 & E2 & ->)|(r & msg & E1 & E2 & E3 & ->)]].
  - destruct e0; simpl; try discriminate;
      intros [= <-]; (split; [|reflexivity]); left; (split; [exact E | discriminate]).
  - discriminate.
  - simpl. intros [= <-]. split; [|reflexivity]. right. exists r, msg. auto.
Qed.

Lemma get_headings_raise_intro url keywords w e :
  (requests_get W (fetched w) url = Raise e
   /\ forall msg response, e <> RequestException msg response)
  \/ (exists r msg, requests_get W (fetched w) url = Ok r
                    /\ raise_for_status U r = Ok tt
                    /\ BeautifulSoup W (text r) = Rejected msg
                    /\ e = OtherException msg) ->
  fst (get_headings U W url keywords w) = Raise e.
Proof.
  intros [[Hg Hne]|(r & msg & Hg & Hr & Hp & ->)]; unfold get_headings, get_headings_try.
  - rewrite Hg. cbn [mbind result_bind]. destruct e; try reflexivity.
    exfalso. exact (Hne _ _ eq_refl).
  - rewrite Hg. cbn [mbind result_bind]. rewrite Hr. cbn [mbind result_bind].
    unfold parse. rewrite Hp. reflexivity.
Qed.

(** X17. Two kinds of exception leave [get_headings], and no other: one
    raised by [requests.get] that is not a request exception, and one the
    parser raises on a page fetched with a good status.  Either passes
    unchanged, after the fetch and with nothing shown.  Request exceptions
    are always answered with a result, and keyword counting never raises. *)
Theorem get_headings_raises_iff url keywords w e :
  (fst (get_headings U W url keywords w) = Raise e
   <-> (requests_get W (fetched w) url = Raise e
        /\ forall msg response, e <> RequestException msg response)
       \/ (exists r msg, requests_get W (fetched w) url = Ok r
                         /\ raise_for_status U r = Ok tt
                         /\ BeautifulSoup W (text r) = Rejected msg
                         /\ e = OtherException msg))
  /\ (fst (get_headings U W url keywords w) = Raise e ->
      snd (get_headings U W url keywords w) = record_fetch url w).
Proof.
  split; [split|].
  - intros H. now apply get_headings_raise_inv in H as [H _].
  - apply get_headings_raise_intro.
  - intros H. now apply get_headings_raise_inv in H as [_ Hw].
Qed.

(** If the network only fails with request exceptions and the parser
    accepts what the network delivers, every call returns a result. *)
Lemma get_headings_returns url keywords w :
  requests_only W -> parser_accepts W ->
  exists h w', get_headings U W url keywords w = (Ok h, w').
Proof.
  intros Hn Hp.
  destruct (get_headings U W url keywords w) as [[h|e] w'] eqn:E; [eauto|].
  destruct (get_headings_raise_inv url keywords w e) as [[[Hg Hne]|H] _].
  { now rewrite E. }
  - destruct (Hn _ _ _ Hg) as (msg & response & ->). exfalso. exact (Hne _ _ eq_refl).
  - destruct H as (r & msg & Hg & _ & Hrej & _).
    destruct (Hp _ _ _ Hg) as [soup Hs]. congruence.
Qed.

(** What [get_headings] returns depends on the moment of the fetch, not on
    the messages shown before. *)
Lemma get_headings_result_moment url keywords w :
  fst (get_headings U W url keywords w)
  = fst (get_headings U W url keywords (at_moment (fetched w))).
Proof.
  unfold get_headings, at_moment. cbn [fetched].
  destruct (get_headings_try U W (fetched w) url keywords) as [h|[]];
    reflexivity.
Qed.

End WithTables.

End ExtractorOutcome.

(** ** Further properties of the driver *)

Module DriverExtras.
Import PyStr Extractor Driver StrFacts StripFacts ExtractorFacts DriverFacts Notions Samples.

Section WithTables.
Variable U : Tables.

Lemma stripped_lines_clean s : Forall (clean_entry U) (stripped_lines U s).
Proof.
  unfold stripped_lines. apply List.Forall_forall. intros x0 Hu.
  apply List.in_map_iff in Hu as (x & <- & Hx).
  apply List.filter_In in Hx as [Hx Ht].
  pose proof (split_on_fields nl_char s) as Hf.
  rewrite List.Forall_forall in Hf. specialize (Hf x Hx).
  split; [|split].
  - intros E. rewrite E in Ht. discriminate.
  - apply strip_idem.
  - pose proof (strip_count U nl_char x). lia.
Qed.

(** X15. What the driver takes from the form is clean: every URL of the
    text area and every keyword is non-empty, has no whitespace at its ends
    and no newline inside; at most five keywords are kept, none of them is
    one the extractor would skip, and none at all when the search is off. *)
Theorem form_entries_clean inp w :
  Forall (clean_entry U) (text_urls U inp)
  /\ Forall (clean_entry U) (fst (keywords_of U inp w))
  /\ Forall (fun k => blank U k = false) (fst (keywords_of U inp w))
  /\ length (fst (keywords_of U inp w)) <= 5
  /\ (enable_keyword_search inp = false -> fst (keywords_of U inp w) = []).
Proof.
  assert (Hk : Forall (clean_entry U) (fst (keywords_of U inp w))).
  { unfold keywords_of. destruct (enable_keyword_search inp); [|constructor].
    destruct (truthy (keyword_input inp)); [|constructor].
    apply Forall_take, stripped_lines_clean. }
  split; [|split; [exact Hk|split; [|split]]].
  - unfold text_urls. destruct (truthy (urls_input inp)); [|constructor].
    apply stripped_lines_clean.
  - eapply List.Forall_impl; [|exact Hk]. intros k (Hne & Hs & _).
    unfold blank. rewrite Hs. destruct k; [congruence | reflexivity].
  - unfold keywords_of. destruct (enable_keyword_search inp); [|simpl; lia].
    destruct (truthy (keyword_input inp)); [|simpl; lia].
    apply List.firstn_le_length.
  - intros E. unfold keywords_of. now rewrite E.
Qed.

(** The URLs of a text area of whitespace only. *)
Lemma text_urls_blank inp :
  all_chars (is_space U) (urls_input inp) = true -> text_urls U inp = [].
Proof.
  intros H. unfold text_urls. destruct (truthy (urls_input inp)); [|reflexivity].
  unfold stripped_lines, split_lines.
  pose proof (split_on_all_space U nl_char _ H) as Hf.
  induction Hf as [|f fs Hf' _ IH]; [reflexivity|].
  simpl. now rewrite (strip_all_space U _ Hf').
Qed.

Variable W : Web.

(** X16. With nothing but whitespace in the text area and no upload, the
    button fetches nothing and stores no results: the only effect is the
    warning that asks for a URL. *)
Theorem analyze_nothing_to_do inp w :
  all_chars (is_space U) (urls_input inp) = true ->
  uploaded_file inp = None ->
  analyze U W inp w
  = (Ok None,
     show (st_warning (u "Please enter at least one URL or upload a valid Excel file."))
          (snd (keywords_of U inp w)))
  /\ fetched (snd (analyze U W inp w)) = fetched w.
Proof.
  intros Hs Hu.
  assert (E : analyze U W inp w
              = (Ok None,
                 show (st_warning
                         (u "Please enter at least one URL or upload a valid Excel file."))
                      (snd (keywords_of U inp w)))).
  { unfold analyze. destruct (keywords_of U inp w) as [keywords w1].
    unfold collect_urls. rewrite Hu, (text_urls_blank _ Hs). reflexivity. }
  split; [exact E|]. rewrite E. simpl. apply keywords_of_fetched.
Qed.

End WithTables.

Lemma analyze_nothing_to_do_witness :
  fetched (snd (analyze ascii_tables sample_web
                  {| urls_input := u "  " ++ nl ++ u " " ++ nl;
                     uploaded_file := None;
                     enable_keyword_search := true;
                     keyword_input := u "seo" |} empty_world)) = [].
Proof.
  refine (proj2 (analyze_nothing_to_do ascii_tables sample_web _ empty_world _ _));
    reflexivity.
Defined.

End DriverExtras.

(** ** The batch: rows, structures and tree views *)

Module BatchExtras.
Import PyStr Extractor Driver Display StrFacts TableFacts ExtractorFacts DriverFacts
  ExtractorOutcome Notions Samples.

(** Writing the keyword columns: the last write of a key wins, and its value
    only depends on the key. *)
Lemma fold_insert_lookup (g : str -> cell) (kws : list str)
    (row : gmap str cell) (c : str) :
  fold_left (fun row keyword => <[keyword := g keyword]> row) kws row !! c
  = if existsb (fun k => bool_decide (c = k)) kws then Some (g c) else row !! c.
Proof.
  revert row. induction kws as [|k rest IH]; intros row; [reflexivity|].
  cbn [fold_left existsb]. rewrite IH.
  destruct (decide (c = k)) as [->|Hne].
  - rewrite bool_decide_eq_true_2 by reflexivity. cbn [orb].
    rewrite lookup_insert_eq. now destruct (existsb (fun k0 => bool_decide (k = k0)) rest).
  - rewrite (bool_decide_eq_false_2 _ Hne). cbn [orb].
    rewrite lookup_insert_ne by congruence. reflexivity.
Qed.

(** X18. In a summary row every keyword column holds the count of its
    keyword (0 without an entry), also when the keyword is spelled like a
    fixed column such as "URL" or "H1", whose value it then replaces; every
    other column holds what the row has without keywords: the URL, title,
    status, description, total and the six level counts. *)
Theorem row_columns url h kws :
  (forall k, In k kws ->
     make_row url h true kws !! k = Some (CInt (get0 (keyword_counts h) k)))
  /\ (forall c enable, enable = false \/ ~ In c kws ->
        make_row url h enable kws !! c = make_row url h false [] !! c)
  /\ make_row url h false [] !! u "URL" = Some (CStr url)
  /\ make_row url h false [] !! u "Title" = Some (CStr (page_title h))
  /\ make_row url h false [] !! u "HTTP Status" = Some (CInt (http_status h))
  /\ make_row url h false [] !! u "Meta Description" = Some (CStr (meta_desc h))
  /\ make_row url h false [] !! u "Total Headings" = Some (CInt (Z.of_nat (total h)))
  /\ (forall tag, In tag Tree.level_tags ->
        make_row url h false [] !! tag = Some (CInt (Z.of_nat (default 0 (counts h !! tag)))))
  /\ dom (make_row url h false [])
     = list_to_set (u "URL" :: u "Title" :: u "HTTP Status" :: u "Meta Description"
                    :: u "Total Headings" :: Tree.level_tags).
Proof.
  split; [|split].
  - intros k Hin. unfold make_row. rewrite fold_insert_lookup.
    assert (E : existsb (fun k0 => bool_decide (k = k0)) kws = true).
    { apply List.existsb_exists. exists k. split; [exact Hin|].
      now apply bool_decide_eq_true_2. }
    now rewrite E.
  - intros c enable H. unfold make_row. destruct enable; [|reflexivity].
    rewrite fold_insert_lookup.
    destruct (existsb (fun k0 => bool_decide (c = k0)) kws) eqn:E; [|reflexivity].
    apply List.existsb_exists in E as (k & Hk & Heq).
    apply bool_decide_eq_true in Heq. subst k.
    destruct H as [H|H]; [discriminate | contradiction].
  - unfold make_row.
    repeat (split; [now repeat (rewrite lookup_insert; case_decide; [try discriminate|])|]).
    split.
    + intros tag Hin. unfold Tree.level_tags in Hin. simpl in Hin.
      repeat (destruct Hin as [<-|Hin];
              [now repeat (rewrite lookup_insert; case_decide; [try discriminate|])|]).
      destruct Hin.
    + rewrite !dom_insert_L, dom_empty_L. unfold Tree.level_tags.
      rewrite !list_to_set_cons, list_to_set_nil.
      apply set_eq. intros x. rewrite !elem_of_union, !elem_of_singleton. tauto.
Qed.

Section WithTables.
Variable U : Tables.

Lemma collect_urls_fetched inp w : fetched (snd (collect_urls U inp w)) = fetched w.
Proof.
  unfold collect_urls.
  destruct (uploaded_file inp) as [[df|e]|]; [|reflexivity..].
  pose proof (sheet_urls_world U df w) as [_ Hw].
  destruct (sheet_urls U df w) as [[extra|e] w1]; exact Hw.
Qed.

(** X19. Typed URLs are never lost: whatever happens to the upload, every
    URL of the text area is in the list to analyse, and collecting fetches
    nothing.  Without an upload, or when reading it fails, the list is the
    text area's as typed, in order and with repetitions, and a failed read is
    shown as an error with the text of its exception. *)
Theorem typed_urls_always_analyzed inp w :
  (forall x, In x (text_urls U inp) -> In x (fst (collect_urls U inp w)))
  /\ fetched (snd (collect_urls U inp w)) = fetched w
  /\ (uploaded_file inp = None -> collect_urls U inp w = (text_urls U inp, w))
  /\ (forall e, uploaded_file inp = Some (Raise e) ->
        collect_urls U inp w
        = (text_urls U inp,
           show (st_error (u "Error reading Excel file: " ++ str_exn e)) w))
  /\ (forall df e, uploaded_file inp = Some (Ok df) -> sheet_column U df = Raise e ->
        fst (collect_urls U inp w) = text_urls U inp
        /\ exists w1, snd (collect_urls U inp w)
                      = show (st_error (u "Error reading Excel file: " ++ str_exn e)) w1).
Proof.
  unfold collect_urls.
  destruct (uploaded_file inp) as [[df|e]|] eqn:Hu.
  - pose proof (sheet_urls_world U df w) as [Hc Hw].
    destruct (sheet_urls U df w) as [[extra|e] w1] eqn:Es; simpl in Hc, Hw.
    + split; [|split; [exact Hw|split; [discriminate|split; [discriminate|]]]].
      * intros x Hin. simpl. apply list_set_In, List.in_or_app. now left.
      * intros df' e [= <-] He. congruence.
    + split; [|split; [exact Hw|split; [discriminate|split; [discriminate|]]]].
      * intros x Hin. exact Hin.
      * intros df' e' [= <-] He. split; [reflexivity|].
        exists w1. simpl. congruence.
  - split; [auto|]. split; [reflexivity|]. split; [discriminate|].
    split; [intros e' [= <-]; reflexivity | discriminate].
  - split; [auto|]. split; [reflexivity|]. split; [reflexivity|].
    split; discriminate.
Qed.

Variable W : Web.

(** What a loop that ran to its end has stored: a row per URL, a structure
    per distinct URL, and only structures that came out of the extractor. *)
Lemma analyze_loop_results urls enable keywords acc w r w' :
  analyze_loop U W urls enable keywords acc w = (Ok r, w') ->
  length (data r) = length (data acc) + length urls
  /\ dom (structures r) = dom (structures acc) ∪ list_to_set urls
  /\ fetched w' = fetched w ++ urls
  /\ (python_on_ascii U ->
      map_Forall (fun _ s => Forall (extracted_node U) s) (structures acc) ->
      map_Forall (fun _ s => Forall (extracted_node U) s) (structures r)).
Proof.
  revert acc w. induction urls as [|url urls IH]; intros acc w H; simpl in H.
  - assert (acc = r) as -> by congruence. assert (w = w') as -> by congruence.
    rewrite List.app_nil_r, list_to_set_nil, (right_id_L ∅ (∪)). simpl.
    split; [lia|]. split; [reflexivity|]. split; [reflexivity | auto].
  - pose proof (get_headings_fetched U W url (if enable then Some keywords else None) w)
      as Hf.
    destruct (get_headings U W url (if enable then Some keywords else None) w)
      as [[h|e] w1] eqn:Eg; [|discriminate].
    apply IH in H as (Hl & Hd & Hw & Hs). simpl in Hl, Hd, Hw, Hs, Hf.
    split; [rewrite Hl, List.length_app; simpl; lia|].
    split.
    { rewrite Hd, dom_insert_L, list_to_set_cons.
      apply set_eq. intros x. rewrite !elem_of_union, !elem_of_singleton. tauto. }
    split; [rewrite Hw, Hf, <- List.app_assoc; reflexivity|].
    intros HU Hacc. apply Hs; [exact HU|]. apply map_Forall_insert_2; [|exact Hacc].
    exact (proj1 (Pipeline.extracted_structure_renders U W _ _ _ _ _ HU Eg)).
Qed.

(** With a network that only fails with request exceptions and a parser
    that accepts its pages, the loop runs to its end. *)
Lemma analyze_loop_returns urls enable keywords acc w :
  requests_only W -> parser_accepts W ->
  exists r w', analyze_loop U W urls enable keywords acc w = (Ok r, w').
Proof.
  intros Hn Hp. revert acc w. induction urls as [|url urls IH]; intros acc w; simpl.
  - eauto.
  - destruct (get_headings_returns U W url (if enable then Some keywords else None) w
                Hn Hp) as (h & w1 & ->).
    apply IH.
Qed.

(** X20. Failed fetches never end the batch: when the network only fails
    with request exceptions (timeouts, refused connections, error statuses)
    and the parser accepts the pages delivered, the button returns normally,
    fetches every collected URL once per occurrence and in order, and, unless
    there was no URL, stores one row per occurrence and one structure per
    distinct URL. *)
Theorem batch_survives_failed_fetches inp w :
  requests_only W -> parser_accepts W ->
  exists out w',
    analyze U W inp w = (Ok out, w')
    /\ fetched w' = fetched w ++ fst (collect_urls U inp (snd (keywords_of U inp w)))
    /\ match out with
       | None => fst (collect_urls U inp (snd (keywords_of U inp w))) = []
       | Some results =>
           length (data results)
           = length (fst (collect_urls U inp (snd (keywords_of U inp w))))
           /\ 0 < length (data results)
           /\ dom (structures results)
              = list_to_set (fst (collect_urls U inp (snd (keywords_of U inp w))))
       end.
Proof.
  intros Hn Hp. unfold analyze.
  pose proof (keywords_of_fetched U inp w) as Hk.
  destruct (keywords_of U inp w) as [keywords w1]. simpl in Hk. simpl snd.
  pose proof (collect_urls_fetched inp w1) as Hc.
  destruct (collect_urls U inp w1) as [urls w2]. simpl in Hc. simpl fst.
  destruct urls as [|u0 urls].
  - eexists _, _. split; [reflexivity|]. simpl. rewrite List.app_nil_r.
    split; [congruence | reflexivity].
  - destruct (analyze_loop_returns (u0 :: urls) (enable_keyword_search inp) keywords
                {| data := []; structures := ∅ |} w2 Hn Hp) as (r & w3 & E).
    rewrite E. eexists _, _. split; [reflexivity|].
    apply analyze_loop_results in E as (Hl & Hd & Hw & _). simpl in Hl, Hd.
    split; [congruence|]. split; [exact Hl|]. split; [rewrite Hl; simpl; lia|].
    now rewrite Hd, dom_empty_L, (left_id_L ∅ (∪)).
Qed.

(** X23. The table and the tree views agree with the extraction, fetch by
    fetch: a batch that ran to its end has appended, in the order of the URL
    list, one row per entry, built from what [get_headings] returned for
    that entry at its moment of the run (a URL listed twice is fetched twice
    and may answer differently).  The structure stored for a URL is that of
    its last fetch; a URL not in the list keeps what was stored before. *)
Theorem results_match_extraction urls enable keywords acc w r w' :
  analyze_loop U W urls enable keywords acc w = (Ok r, w') ->
  exists hs,
    length hs = length urls
    /\ (forall i url, urls !! i = Some url ->
          exists h, hs !! i = Some h
                    /\ fst (get_headings U W url (if enable then Some keywords else None)
                              (at_moment (fetched w ++ take i urls))) = Ok h)
    /\ data r
       = data acc ++ zip_with (fun url h => make_row url h enable keywords) urls hs
    /\ (forall i url h, urls !! i = Some url -> hs !! i = Some h ->
          (forall j, i < j -> urls !! j <> Some url) ->
          structures r !! url = Some (structure h))
    /\ (forall url, ~ In url urls -> structures r !! url = structures acc !! url).
Proof.
  revert acc w. induction urls as [|url0 urls IH]; intros acc w H; simpl in H.
  - assert (acc = r) as -> by congruence. exists [].
    split; [reflexivity|]. split; [intros i url Hi; discriminate|].
    split; [simpl; now rewrite List.app_nil_r|].
    split; [intros i url h Hi; discriminate | reflexivity].
  - pose proof (get_headings_result_moment U W url0
                  (if enable then Some keywords else None) w) as Hm.
    pose proof (get_headings_fetched U W url0 (if enable then Some keywords else None) w)
      as Hf.
    destruct (get_headings U W url0 (if enable then Some keywords else None) w)
      as [[h0|e] w1] eqn:Eg; [|discriminate].
    simpl in Hm, Hf.
    apply IH in H as (hs & Hlen & Ha & Hd & Hc & Hn). simpl in Hd, Hn.
    exists (h0 :: hs).
    split; [simpl; now rewrite Hlen|]. split; [|split; [|split]].
    + intros [|i] url Hi; simpl in Hi.
      * injection Hi as <-. exists h0. split; [reflexivity|].
        simpl. rewrite List.app_nil_r. now rewrite <- Hm.
      * destruct (Ha i url Hi) as (h & Hh & Hg). exists h. split; [exact Hh|].
        rewrite Hf, <- List.app_assoc in Hg. exact Hg.
    + rewrite Hd, <- List.app_assoc. reflexivity.
    + intros [|i] url h Hi Hh Hlast; simpl in Hi, Hh.
      * injection Hi as <-. injection Hh as <-.
        rewrite Hn; [apply lookup_insert_eq|].
        intros Hin. apply list_elem_of_In, list_elem_of_lookup in Hin as [j Hj].
        apply (Hlast (S j)); [lia | exact Hj].
      * apply (Hc i url h Hi Hh). intros j Hj. apply (Hlast (S j)). lia.
    + intros url Hnin. rewrite Hn by (intros Hin; apply Hnin; now right).
      apply lookup_insert_ne. intros ->. apply Hnin. now left.
Qed.

(** Rendering in turn a list whose elements all render. *)
Lemma map_result_all {A B} (f : A -> result B) (l : list A) :
  Forall (fun a => exists b, f a = Ok b) l ->
  exists bs, map_result f l = Ok bs /\ Forall2 (fun a b => f a = Ok b) l bs.
Proof.
  induction 1 as [|a l [b Hb] _ (bs & Hbs & H2)].
  - exists []. split; [reflexivity | constructor].
  - exists (b :: bs). cbn [map_result]. rewrite Hb. cbn [mbind result_bind].
    rewrite Hbs. split; [reflexivity | now constructor].
Qed.

(** X21. The results section never fails on what the button stored: every
    stored structure is rendered, one tree view per distinct URL, each view
    not empty; the view of a page without headings, or of a failed fetch, is
    the no-headings message. *)
Theorem stored_results_render inp w results w' :
  python_on_ascii U ->
  analyze U W inp w = (Ok (Some results), w') ->
  exists views,
    tree_views U (Some results) = Ok views
    /\ List.map fst views = List.map fst (map_to_list (structures results))
    /\ length views = size (structures results)
    /\ Forall (fun v => snd v <> []) views
    /\ (forall url, structures results !! url = Some [] ->
                    In (url, Tree.no_headings) views).
Proof.
  intros HU. unfold analyze.
  destruct (keywords_of U inp w) as [keywords w1].
  destruct (collect_urls U inp w1) as [[|u0 urls] w2]; [discriminate|].
  destruct (analyze_loop U W (u0 :: urls)
              (enable_keyword_search inp) keywords {| data := []; structures := ∅ |} w2)
    as [[r|e] w3] eqn:E; [|discriminate].
  intros H. assert (r = results) as -> by (simpl in H; congruence). clear H.
  apply analyze_loop_results in E as (Hl & _ & _ & Hs). simpl in Hl.
  specialize (Hs HU (map_Forall_empty _)).
  unfold tree_views. destruct (data results) as [|row rows]; [simpl in Hl; lia|].
  apply map_Forall_to_list in Hs.
  destruct (map_result_all
              (fun p : str * list (str * str) =>
                 tree_text ← Tree.build_tree U (snd p); Ok (fst p, tree_text))
              (map_to_list (structures results))) as (views & Hv & H2).
  { eapply List.Forall_impl; [|exact Hs]. intros [url st] Hst. simpl in Hst. simpl.
    destruct st as [|x l]; [eexists; reflexivity|].
    rewrite (TreeClaims.build_tree_render U (x :: l));
      [eexists; reflexivity | exact HU | discriminate|].
    eapply List.Forall_impl; [|exact Hst]. now intros a [Ha _]. }
  exists views. split; [exact Hv|].
  assert (Hfst : List.map fst views = List.map fst (map_to_list (structures results))).
  { clear -H2. induction H2 as [|a b l bs Hab _ IH]; [reflexivity|].
    simpl. rewrite IH. f_equal.
    destruct (Tree.build_tree U (snd a)) as [t|e]; [|discriminate].
    cbn in Hab. now injection Hab as <-. }
  split; [exact Hfst|]. split.
  { rewrite <- length_map_to_list, <- (List.length_map fst views), Hfst.
    now rewrite List.length_map. }
  split.
  - clear -H2. induction H2 as [|a b l bs Hab _ IH]; [constructor|].
    constructor; [|exact IH].
    destruct (Tree.build_tree U (snd a)) as [t|e] eqn:Et; [|discriminate].
    cbn in Hab. injection Hab as <-. simpl.
    exact (proj1 (TreeExtras.build_tree_out_shape U _ _ Et)).
  - intros url Hu. apply elem_of_map_to_list, list_elem_of_In in Hu.
    clear -H2 Hu. induction H2 as [|a b l bs Hab _ IH]; [destruct Hu|].
    destruct Hu as [->|Hu]; [left | right; now apply IH].
    cbn in Hab. now injection Hab as <-.
Qed.

End WithTables.

(** A network whose pages the sample parser accepts. *)
Lemma plain_web_requests_only : requests_only plain_web.
Proof.
  intros earlier url e. unfold plain_web, plain_get. simpl.
  repeat case_bool_decide; try discriminate.
  intros [= <-]. eauto.
Qed.

Lemma plain_web_parser_accepts : parser_accepts plain_web.
Proof. intros earlier url response _. eexists. reflexivity. Qed.

Lemma batch_survives_failed_fetches_witness :
  exists out w',
    analyze ascii_tables plain_web sample_inputs empty_world = (Ok out, w')
    /\ length (fetched w') = 3.
Proof.
  destruct (batch_survives_failed_fetches ascii_tables plain_web sample_inputs
              empty_world plain_web_requests_only plain_web_parser_accepts)
    as (out & w' & E & Hf & _).
  exists out, w'. split; [exact E|]. rewrite Hf. reflexivity.
Defined.

Lemma stored_results_render_witness :
  exists results w' views,
    analyze ascii_tables sample_web sample_inputs empty_world = (Ok (Some results), w')
    /\ tree_views ascii_tables (Some results) = Ok views
    /\ length views = size (structures results).
Proof.
  destruct (analyze ascii_tables sample_web sample_inputs empty_world)
    as [[[results|]|e] w'] eqn:E.
  - destruct (stored_results_render ascii_tables sample_web _ _ _ _ ascii_tables_python E)
      as (views & Hv & _ & Hl & _).
    exists results, w', views. split; [reflexivity|]. split; [exact Hv | exact Hl].
  - vm_compute in E. discriminate.
  - vm_compute in E. discriminate.
Defined.

Lemma results_match_extraction_witness :
  exists r w' hs,
    analyze_loop ascii_tables flaky_web [u "http://ok"; u "http://ok"] false []
      {| data := []; structures := ∅ |} empty_world = (Ok r, w')
    /\ length hs = 2
    /\ length (data r) = 2
    /\ (forall h, hs !! 1 = Some h ->
                  structures r !! u "http://ok" = Some (structure h)).
Proof.
  destruct (analyze_loop ascii_tables flaky_web [u "http://ok"; u "http://ok"] false []
              {| data := []; structures := ∅ |} empty_world) as [[r|e] w'] eqn:E.
  - destruct (results_match_extraction ascii_tables flaky_web _ _ _ _ _ _ _ E)
      as (hs & Hlen & _ & Hd & Hc & _).
    exists r, w', hs. split; [reflexivity|]. split; [exact Hlen|]. split.
    + rewrite Hd, List.length_app, length_zip_with, Hlen. reflexivity.
    + intros h Hh. apply (Hc 1 _ h eq_refl Hh).
      intros [|[|j]] Hj; [lia | lia | discriminate].
  - vm_compute in E. discriminate.
Defined.

(** A URL listed twice whose second fetch fails: the first row keeps the
    page, the stored structure is that of the failed fetch. *)
Example repeated_url_last_fetch_wins :
  exists r w',
    analyze_loop ascii_tables flaky_web [u "http://ok"; u "http://ok"] false []
      {| data := []; structures := ∅ |} empty_world = (Ok r, w')
    /\ (exists row, data r !! 0 = Some row
                    /\ row !! u "Total Headings" = Some (CInt 4))
    /\ structures r !! u "http://ok" = Some [].
Proof.
  eexists _, _. split; [reflexivity|]. split; [|reflexivity].
  eexists. split; reflexivity.
Qed.

End BatchExtras.
